(** * tf-guides: the notebooks of [keras_quickstart], embedded and checked

    The repository holds four notebooks: a convolutional classifier
    ([0_keras_cnn]), a tabular input pipeline ([1_tf_data_tutorial]), saving
    and restoring checkpoints ([4_save_and_load]) and a benchmark of a
    [tf.data] input pipeline reading from cloud storage.  Each notebook is
    embedded in a module of its own; the calls into TensorFlow, Keras, NumPy
    and pandas are embedded by what those libraries document, and everything
    that depends on the contents of tensors or of the stores (decoding,
    casting, training, the files of a bucket) is a method of an interface
    the notebooks are stated over. *)

From Stdlib Require Import ZArith Lia Ascii String.
From stdpp Require Import base option list gmap strings pretty.

Open Scope string_scope.
Open Scope list_scope.
Open Scope Z_scope.

(** ** Python: exceptions, indexing, [str.split], [dict] *)

Module Py.

Inductive exn : Type :=
| KeyError
| IndexError
| ValueError
| NotFoundError
| OverflowError.

Inductive result (A : Type) : Type :=
| Ok (a : A)
| Raise (e : exn).

Arguments Ok {A} a.
Arguments Raise {A} e.

#[global] Instance result_ret : MRet result := fun A a => Ok a.

#[global] Instance result_bind : MBind result := fun A B f r =>
  match r with
  | Ok a => f a
  | Raise e => Raise e
  end.

(** [for x in xs: acc = body(acc, x)], leaving the loop at the first
    step that does not return. *)
Fixpoint for_each `{MBind M, MRet M} {A S : Type} (body : S -> A -> M S) (acc : S)
    (xs : list A) : M S :=
  match xs with
  | [] => mret acc
  | x :: xs' => acc' ← body acc x; for_each body acc' xs'
  end.

(** [range(n)] *)
Definition range (n : nat) : list Z := Z.of_nat <$> seq 0 n.

(** [l[i]] on a Python list: a negative index counts from the end,
    anything outside [-len, len) raises [IndexError]. *)
Definition getitem {A : Type} (l : list A) (i : Z) : result A :=
  let n := Z.of_nat (length l) in
  let j := if i <? 0 then i + n else i in
  if (0 <=? j) && (j <? n) then
    match l !! Z.to_nat j with
    | Some x => Ok x
    | None => Raise IndexError
    end
  else Raise IndexError.

(** [d[k]] on a [dict]. *)
Definition dict_getitem `{Countable K} {V : Type} (d : gmap K V) (k : K) : result V :=
  match d !! k with
  | Some v => Ok v
  | None => Raise KeyError
  end.

(** [s.split(sep=c)] for a one-character separator: one segment more than
    there are separators, empty segments kept. *)
Fixpoint split (sep : ascii) (s : string) : list string :=
  match s with
  | EmptyString => [EmptyString]
  | String c s' =>
      if Ascii.eqb c sep then EmptyString :: split sep s'
      else
        match split sep s' with
        | seg :: rest => String c seg :: rest
        | [] => [String c EmptyString]
        end
  end.

(** The values the notebooks pass as a flag: [False]/[True], a string,
    [None] or a number. *)
Inductive value : Type :=
| VBool (b : bool)
| VStr (s : string)
| VNone
| VInt (z : Z).

(** [if v:] *)
Definition truthy (v : value) : bool :=
  match v with
  | VBool b => b
  | VStr s => negb (String.eqb s "")
  | VNone => false
  | VInt z => negb (z =? 0)
  end.

End Py.

Import Py.

(** ** NumPy *)

Module Np.

(** [zeros(n, dtype='uint8')], then [list(...)] of it. *)
Definition zeros (n : nat) : list Z := replicate n 0.

(** [a[i] = x] on a vector: a negative index counts from the end; an index
    outside [-len, len) raises [IndexError] when it fits the index type
    (a signed 64-bit integer) and [OverflowError] when it does not.  A
    vector has fewer than [2^63] entries, so it does not show that NumPy
    converts the index before it compares it. *)
Definition setitem {A : Type} (a : list A) (i : Z) (x : A) : result (list A) :=
  let n := Z.of_nat (length a) in
  let j := if i <? 0 then i + n else i in
  if (0 <=? j) && (j <? n) then Ok (<[Z.to_nat j := x]> a)
  else if (i <? - 2 ^ 63) || (2 ^ 63 <=? i) then Raise OverflowError
  else Raise IndexError.

End Np.

(** ** tf.data: datasets as the chain of transformations that built them and
    the elements an iteration yields *)

Module TfData.

Definition bytes : Type := list Byte.byte.

(** What one pass over a dataset yields: finitely many elements, or the
    elements of a non-empty list over and over ([repeat()]). *)
Inductive Seq (A : Type) : Type :=
| Finite (l : list A)
| Repeated (l : list A).

Arguments Finite {A} l.
Arguments Repeated {A} l.

(** [tf.data.experimental.AUTOTUNE] *)
Definition AUTOTUNE : Z := -1.

(** One transformation of the chain, with the arguments the notebooks give. *)
Inductive Op : Type :=
| OpShuffle (buffer_size : Z)
| OpMap (num_parallel_calls : option Z)
| OpInterleave (num_parallel_calls : option Z)
| OpRepeat
| OpBatch (batch_size : nat)
| OpCache (filename : string)
| OpPrefetch (buffer_size : Z)
| OpShard (num_shards index : nat)
| OpTake (count : nat).

Record Dataset (A : Type) : Type := mkDataset {
  elems : Seq A;
  ops : list Op
}.

Arguments mkDataset {A} elems ops.
Arguments elems {A} d.
Arguments ops {A} d.

(** The choices tf.data leaves to its runtime: the order a shuffle buffer
    releases elements in, and how the readers of an interleave are
    scheduled ([cycle_length] follows the number of cores under AUTOTUNE). *)
Class Runtime : Type := {
  shuffle_elems : forall {A : Type}, Z -> Seq A -> Seq A;
  interleave_elems : forall {A B : Type}, (A -> Seq B) -> Seq A -> Seq B
}.

Definition seq_map {A B : Type} (f : A -> B) (s : Seq A) : Seq B :=
  match s with
  | Finite l => Finite (f <$> l)
  | Repeated l => Repeated (f <$> l)
  end.

(** [l] written [n] times in a row. *)
Definition cycle {A : Type} (n : nat) (l : list A) : list A := mjoin (replicate n l).

(** The first [n] elements of an iteration ([next(it)], [n] times; fewer
    when the dataset ends before). *)
Definition first_n {A : Type} (n : nat) (s : Seq A) : list A :=
  match s with
  | Finite l => take n l
  | Repeated l => take n (cycle n l)
  end.

(** Consecutive groups of [b] elements; the last group is shorter when [b]
    does not divide the length ([drop_remainder=False]).  [fuel] bounds the
    number of groups. *)
Fixpoint chunks_fuel {A : Type} (fuel b : nat) (l : list A) : list (list A) :=
  match fuel with
  | O => []
  | S fuel' =>
      match l with
      | [] => []
      | _ :: _ => take b l :: chunks_fuel fuel' b (drop b l)
      end
  end.

Definition chunks {A : Type} (b : nat) (l : list A) : list (list A) :=
  chunks_fuel (length l) b l.

(** The elements at positions [pos], [pos+1], ... that fall on [index]
    modulo [n]. *)
Fixpoint shard_from {A : Type} (n index pos : nat) (l : list A) : list A :=
  match l with
  | [] => []
  | x :: l' =>
      if (Nat.eqb (pos mod n) index) then x :: shard_from n index (S pos) l'
      else shard_from n index (S pos) l'
  end.

Definition shard_list {A : Type} (n index : nat) (l : list A) : list A :=
  shard_from n index 0 l.

(** [tf.data.Dataset.from_tensor_slices(l)] *)
Definition from_tensor_slices {A : Type} (l : list A) : Dataset A :=
  mkDataset (Finite l) [].

(** [from_tensor_slices((xs, ys))]: the slices are paired up; the two
    components must have the same first dimension. *)
Definition from_tensor_slices2 {A B : Type} (xs : list A) (ys : list B)
  : result (Dataset (A * B)) :=
  if Nat.eqb (length xs) (length ys) then Ok (from_tensor_slices (zip xs ys))
  else Raise ValueError.

(** [d.shuffle(buffer_size)], for [buffer_size >= 1]: the framework refuses
    any other size when the pipeline is built.  The order of a pass stands
    for the order of every pass; the framework draws a new one for each. *)
Definition shuffle `{Runtime} {A : Type} (buffer_size : Z) (d : Dataset A) : Dataset A :=
  mkDataset (shuffle_elems buffer_size (elems d)) (ops d ++ [OpShuffle buffer_size]).

(** [d.map(f, num_parallel_calls=p)]: the order of the elements is kept. *)
Definition map {A B : Type} (f : A -> B) (p : option Z) (d : Dataset A) : Dataset B :=
  mkDataset (seq_map f (elems d)) (ops d ++ [OpMap p]).

(** [d.interleave(f, num_parallel_calls=p)] *)
Definition interleave `{Runtime} {A B : Type} (f : A -> Dataset B) (p : option Z)
    (d : Dataset A) : Dataset B :=
  mkDataset (interleave_elems (fun x => elems (f x)) (elems d)) (ops d ++ [OpInterleave p]).

(** [d.repeat()]: an empty dataset stays empty. *)
Definition repeat {A : Type} (d : Dataset A) : Dataset A :=
  mkDataset
    match elems d with
    | Finite [] => Finite []
    | Finite l => Repeated l
    | Repeated l => Repeated l
    end
    (ops d ++ [OpRepeat]).

(** [d.batch(batch_size=b)], for [b >= 1] and elements of one shape: the
    framework refuses [b = 0] when the pipeline is built and elements of
    different shapes when the batch is drawn.  Over an endless repetition
    of [l] the groups realign after [b] copies of [l], so the batches are
    the groups of those [b] copies, over and over. *)
Definition batch {A : Type} (b : nat) (d : Dataset A) : Dataset (list A) :=
  mkDataset
    match elems d with
    | Finite l => Finite (chunks b l)
    | Repeated l => Repeated (chunks b (cycle b l))
    end
    (ops d ++ [OpBatch b]).

(** [d.cache(filename)]; [d.cache()] is [filename=''], the in-memory one.
    The elements are those of [d]; the room it takes to keep them is not
    part of the model (no cache holds an endless dataset). *)
Definition cache {A : Type} (filename : string) (d : Dataset A) : Dataset A :=
  mkDataset (elems d) (ops d ++ [OpCache filename]).

(** [d.prefetch(buffer_size)] *)
Definition prefetch {A : Type} (buffer_size : Z) (d : Dataset A) : Dataset A :=
  mkDataset (elems d) (ops d ++ [OpPrefetch buffer_size]).

(** [d.shard(num_shards, index)]: every [num_shards]-th element, from
    [index] on. *)
Definition shard {A : Type} (num_shards index : nat) (d : Dataset A) : Dataset A :=
  mkDataset
    match elems d with
    | Finite l => Finite (shard_list num_shards index l)
    | Repeated l => Repeated (shard_list num_shards index (cycle num_shards l))
    end
    (ops d ++ [OpShard num_shards index]).

(** [d.take(count)] *)
Definition take {A : Type} (count : nat) (d : Dataset A) : Dataset A :=
  mkDataset (Finite (first_n count (elems d))) (ops d ++ [OpTake count]).

(** tf.data hands the components of a tuple element to the mapped function
    as separate arguments. *)
Definition unpack {A B C : Type} (f : A -> B -> C) (p : A * B) : C := f p.1 p.2.

(** [d.apply(f)] *)
Definition apply {A B : Type} (f : Dataset A -> Dataset B) (d : Dataset A) : Dataset B :=
  f d.

(** [list(d.as_numpy_iterator())]: running an iterator to its end gives all
    the elements of a finite dataset and never returns on an endless one. *)
Definition as_numpy_iterator {A : Type} (d : Dataset A) : option (list A) :=
  match elems d with
  | Finite l => Some l
  | Repeated _ => None
  end.

(** The file names of the [cache] stages of a chain, in order. *)
Definition cache_stages (os : list Op) : list string :=
  omap (fun o => match o with OpCache f => Some f | _ => None end) os.

(** [tf.map_fn(f, xs)]: [f] on every entry along the first axis. *)
Definition map_fn {A B : Type} (f : A -> B) (xs : list A) : list B := f <$> xs.

(** A runtime with one reader, as on a machine with one core
    ([cycle_length] 1): a shuffle releases a finite dataset in reverse order
    of arrival, and an interleave reads the inner datasets one after the
    other. *)
Definition seq_list {A : Type} (s : Seq A) : list A :=
  match s with
  | Finite l => l
  | Repeated l => l
  end.

#[local] Instance one_reader : Runtime := {|
  shuffle_elems A _ s :=
    match s with
    | Finite l => Finite (reverse l)
    | Repeated l => Repeated l
    end;
  interleave_elems A B f s :=
    match s with
    | Finite l => Finite (l ≫= fun a => seq_list (f a))
    | Repeated l => Repeated (l ≫= fun a => seq_list (f a))
    end
|}.

End TfData.

(** ** TensorFlow: files, images and protocol buffers *)

Module Tf.

Import TfData.

Inductive DType : Type := uint8 | float32 | int64 | tf_string.

(** [tf.train.Feature] *)
Inductive Feature : Type :=
| BytesList (value : list bytes)
| FloatList (value : list Z)
| Int64List (value : list Z).

(** [tf.train.Example]: its feature map. *)
Definition Example : Type := gmap string Feature.

Inductive FeatureKind : Type :=
| FixedLenFeature (shape : list nat) (dtype : DType)
| FixedLenSequenceFeature (shape : list nat) (dtype : DType) (allow_missing : bool).

(** What parsing with the notebook's [feature_description] returns: the
    dictionary with the keys ['image'] and ['label']. *)
Record Parsed : Type := mkParsed {
  image : bytes;
  label : list Z
}.

(** The same for a batch of serialized examples. *)
Record ParsedBatch : Type := mkParsedBatch {
  images : list bytes;
  labels : list (list Z)
}.

(** A TFRecord file: the compression it was written with and its records. *)
Record TFRecordFile : Type := mkTFRecordFile {
  compression_type : string;
  records : list bytes
}.

(** The operations whose results depend on tensors' contents or on the
    stores the notebook reads from. *)
Class Ops : Type := {
  Tensor : Type;
  (** [tf.io.gfile.glob(pattern)] *)
  glob : string -> list string;
  (** [tf.io.read_file(path)] *)
  read_file : string -> bytes;
  (** [tf.io.decode_jpeg(contents, channels)]; [channels=0] is the default,
      the number of channels the image was stored with. *)
  decode_jpeg : nat -> bytes -> Tensor;
  (** [tf.image.convert_image_dtype(image, dtype)] *)
  convert_image_dtype : DType -> Tensor -> Tensor;
  (** [tf.image.resize(image, size, method)] *)
  resize : nat * nat -> string -> Tensor -> Tensor;
  (** [tf.io.encode_jpeg(image, optimize_size)] *)
  encode_jpeg : bool -> Tensor -> bytes;
  (** [tf.cast(x, dtype)] *)
  cast : DType -> Tensor -> Tensor;
  (** [x / c] on a tensor *)
  divide : Tensor -> Z -> Tensor;
  (** [example.SerializeToString()] *)
  SerializeToString : Example -> bytes;
  (** [tf.io.parse_single_example(serialized, features)] *)
  parse_single_example : bytes -> list (string * FeatureKind) -> Parsed;
  (** the records of the TFRecord file [filename] in the bucket the
      benchmark reads from *)
  tfrecord_records : string -> string -> list bytes
}.

(** [l] filled up with zeros to length [n]. *)
Definition pad_to (n : nat) (l : list Z) : list Z := l ++ replicate (n - length l) 0.

(** [tf.io.parse_example(serialized, features)]: every example of the batch
    parsed, the results stacked per key; a [FixedLenSequenceFeature] with
    [allow_missing] is filled up with the default [0] to the longest of the
    batch. *)
Definition parse_example `{Ops} (serialized : list bytes)
    (features : list (string * FeatureKind)) : ParsedBatch :=
  let rs := (fun s => parse_single_example s features) <$> serialized in
  let longest := max_list (length <$> (label <$> rs)) in
  mkParsedBatch (image <$> rs) (pad_to longest <$> (label <$> rs)).

(** [tf.data.TFRecordDataset(filename, compression_type, num_parallel_reads)] *)
Definition TFRecordDataset `{Ops} (filename compression : string) (num_parallel_reads : Z)
  : Dataset bytes :=
  from_tensor_slices (tfrecord_records filename compression).

End Tf.

(** ** The input-pipeline benchmark *)

Module Benchmark.

Import TfData Tf.

Section Notebook.

Context `{Runtime} `{Ops}.

(** [NUM_TOTAL_IMAGES = len(filepath)] *)
Variable NUM_TOTAL_IMAGES : nat.

Definition BATCH_SIZE : nat := 1.

Definition RESOLUTION : nat * nat := (224%nat, 224%nat).

(** Get labels from folder's name and create a map to an ID *)
Definition get_label_map (path : string) : result (gmap string Z * gmap Z string) :=
  let folders_name := glob path in
  labels ← for_each (fun labels folder =>
              name ← getitem (split "/" folder) (-1);
              mret (labels ++ [name]))
            [] folders_name;
  label_map ← for_each (fun m i => name ← getitem labels i; mret (<[name := i]> m))
                (∅ : gmap string Z) (range (length labels));
  inv_label_map ← for_each (fun m i => name ← getitem labels i; mret (<[i := name]> m))
                    (∅ : gmap Z string) (range (length labels));
  mret (label_map, inv_label_map).

(** One hot encode the image's labels *)
Definition one_hot_encode (label_map : gmap string Z) (filepath : list string)
  : result (gmap string (list Z)) :=
  for_each (fun labels i =>
      let encoding := Np.zeros (size label_map) in
      path ← getitem filepath i;
      folder ← getitem (split "/" path) (-2);
      index ← dict_getitem label_map folder;
      encoding ← Np.setitem encoding index 1;
      mret (<[path := encoding]> labels))
    (∅ : gmap string (list Z)) (range (length filepath)).

(** Download image bytes from Cloud Storage *)
Definition get_bytes_label {L : Type} (filepath : string) (label : L) : bytes * L :=
  let raw_bytes := read_file filepath in
  (raw_bytes, label).

(** Preprocess Image *)
Definition process_image {L : Type} (raw_bytes : bytes) (label : L) : Tensor * L :=
  let image := decode_jpeg 3 raw_bytes in
  let image := convert_image_dtype float32 image in
  let image := resize (224%nat, 224%nat) "bilinear" image in
  (image, label).

(** Map transformations for each element inside the dataset *)
Definition build_dataset {L : Type} (dataset : Dataset (string * L)) (batch_size : nat)
    (cache : value) : Dataset (list (Tensor * L)) :=
  let dataset := TfData.shuffle (Z.of_nat NUM_TOTAL_IMAGES) dataset in
  let dataset := TfData.map (unpack get_bytes_label) (Some AUTOTUNE) dataset in
  let dataset := TfData.map (unpack process_image) (Some AUTOTUNE) dataset in
  let dataset := TfData.repeat dataset in
  let dataset := TfData.batch batch_size dataset in
  let dataset :=
    if truthy cache then
      match cache with
      | VStr filename => TfData.cache filename dataset  (* isinstance(cache, str) *)
      | _ => TfData.cache "" dataset
      end
    else dataset in
  let dataset := TfData.prefetch AUTOTUNE dataset in
  dataset.

(** Function to download bytes from Cloud Storage *)
Definition get_bytes_label_tfrecord {L : Type} (filepath : string) (label : L) : bytes * L :=
  let raw_bytes := read_file filepath in
  (raw_bytes, label).

(** Preprocess Image, for writing *)
Definition process_image_tfrecord {L : Type} (raw_bytes : bytes) (label : L) : bytes * L :=
  let image := decode_jpeg 3 raw_bytes in
  let image := resize (224%nat, 224%nat) "nearest" image in
  let image := encode_jpeg true image in
  (image, label).

(** Read images, preprocess and return a dataset *)
Definition build_dataset_tfrecord {L : Type} (dataset : Dataset (string * L))
  : Dataset (bytes * L) :=
  let dataset := TfData.map (unpack get_bytes_label_tfrecord) (Some AUTOTUNE) dataset in
  let dataset := TfData.map (unpack process_image_tfrecord) (Some AUTOTUNE) dataset in
  dataset.

Definition _bytes_feature (value : bytes) : Feature := BytesList [value].

Definition _float_feature (value : Z) : Feature := FloatList [value].

Definition _int64_feature (value : list Z) : Feature := Int64List value.

Definition serialize_example (image : bytes) (label : list Z) : bytes :=
  let feature : Example :=
    <["label" := _int64_feature label]> (<["image" := _bytes_feature image]> ∅) in
  SerializeToString feature.

Definition tf_serialize_example (image : bytes) (label : list Z) : bytes :=
  let tf_string := serialize_example image label in
  tf_string.

(** ['output_file-part-{i}.tfrecord'.format(i=i)] *)
Definition output_file (i : nat) : string :=
  "output_file-part-" +:+ pretty i +:+ ".tfrecord".

(** Create TFRecord with [n_shards] shards.  The state is the local file
    system; the result is [None] when an iteration never ends. *)
Definition create_tfrecord (ds : Dataset (string * list Z)) (n_shards : nat)
    (fs : gmap string TFRecordFile) : option (gmap string TFRecordFile) :=
  for_each (fun fs i =>
      elements ← as_numpy_iterator
                   (TfData.apply build_dataset_tfrecord (TfData.shard n_shards i ds));
      let batch := (fun x => tf_serialize_example x.1 x.2) <$> elements in
      let writer := mkTFRecordFile "GZIP" [] in
      let writer := foldl (fun w a => mkTFRecordFile (compression_type w) (records w ++ [a]))
                      writer batch in
      mret (<[output_file i := writer]> fs))
    fs (seq 0 n_shards).

(** Create a description of the features. *)
Definition feature_description : list (string * FeatureKind) :=
  [("image", FixedLenFeature [] tf_string);
   ("label", FixedLenSequenceFeature [] int64 true)].

(** Create a Dataset composed of TFRecords (paths to bucket) *)
Definition get_tfrecord (filename : string) : Dataset bytes :=
  TFRecordDataset filename "GZIP" AUTOTUNE.

End Notebook.

(** The first [build_dataset_test]: parse and decode element by element,
    repeat, then batch. *)
Module PerElement.

Section Notebook.

Context `{Runtime} `{Ops}.

Definition _parse_function (example_proto : bytes) : Parsed :=
  parse_single_example example_proto feature_description.

Definition process_image_tfrecord (record : Parsed) : Tensor * list Z :=
  let image := decode_jpeg 3 (Tf.image record) in
  let image := convert_image_dtype float32 image in
  let label := Tf.label record in
  (image, label).

Definition build_dataset_test (dataset : Dataset string) (batch_size : nat)
  : Dataset (list (Tensor * list Z)) :=
  let dataset := TfData.interleave get_tfrecord (Some AUTOTUNE) dataset in
  let dataset := TfData.map _parse_function (Some AUTOTUNE) dataset in
  let dataset := TfData.map process_image_tfrecord (Some AUTOTUNE) dataset in
  let dataset := TfData.repeat dataset in
  let dataset := TfData.batch batch_size dataset in
  let dataset := TfData.prefetch AUTOTUNE dataset in
  dataset.

End Notebook.

End PerElement.

(** The second [build_dataset_test] ("Batch before we Map!"): batch, parse
    and decode a batch at a time, then repeat. *)
Module Vectorized.

Section Notebook.

Context `{Runtime} `{Ops}.

Definition _parse_function (example_proto : list bytes) : ParsedBatch :=
  let feature_description :=
    [("image", FixedLenFeature [] tf_string);
     ("label", FixedLenSequenceFeature [] int64 true)] in
  parse_example example_proto feature_description.

Definition process_image_tfrecord (record : ParsedBatch) : list Tensor * list (list Z) :=
  let image := map_fn (decode_jpeg 0) (Tf.images record) in
  let image := map_fn (fun image => convert_image_dtype float32 image) image in
  let label := Tf.labels record in
  (image, label).

Definition build_dataset_test (dataset : Dataset string) (batch_size : nat)
  : Dataset (list Tensor * list (list Z)) :=
  let dataset := TfData.interleave get_tfrecord (Some AUTOTUNE) dataset in
  let dataset := TfData.batch batch_size dataset in
  let dataset := TfData.map _parse_function (Some AUTOTUNE) dataset in
  let dataset := TfData.map process_image_tfrecord (Some AUTOTUNE) dataset in
  let dataset := TfData.repeat dataset in
  let dataset := TfData.prefetch AUTOTUNE dataset in
  dataset.

End Notebook.

End Vectorized.

End Benchmark.

(** ** Keras: layers, checkpoints, training *)

Module Keras.

Inductive Activation : Type := relu.

(** The layers the notebooks stack, with the arguments they give; the rate
    of [Dropout] is in percent. *)
Inductive Layer : Type :=
| Conv2D (filters kernel_size : nat) (activation : option Activation)
    (input_shape : option (list nat))
| MaxPooling2D
| Flatten
| Dense (units : nat) (activation : option Activation) (input_shape : option (list nat))
| Dropout (rate : nat).

#[global] Instance Activation_eq_dec : EqDecision Activation.
Proof. solve_decision. Defined.

#[global] Instance Layer_eq_dec : EqDecision Layer.
Proof. solve_decision. Defined.

(** The shape a layer turns an input shape into (without the batch axis):
    a convolution with stride 1 and no padding, a 2 by 2 pooling with
    stride 2, a flattening, a dense layer on the last axis. *)
Definition compute_output_shape (l : Layer) (input : list nat) : option (list nat) :=
  match l, input with
  | Conv2D filters k _ _, [h; w; _] =>
      if (k <=? h)%nat && (k <=? w)%nat && (1 <=? k)%nat
      then Some [h - k + 1; w - k + 1; filters]%nat else None
  | Conv2D _ _ _ _, _ => None
  | MaxPooling2D, [h; w; c] =>
      if (2 <=? h)%nat && (2 <=? w)%nat
      then Some [(h - 2) / 2 + 1; (w - 2) / 2 + 1; c]%nat else None
  | MaxPooling2D, _ => None
  | Flatten, _ => Some [foldr Nat.mul 1%nat input]
  | Dense units _ _, _ =>
      match reverse input with
      | _ :: front => Some (reverse front ++ [units])
      | [] => None
      end
  | Dropout _, _ => Some input
  end.

(** The [input_shape] the first layer of a [Sequential] declares. *)
Definition input_shape_of (layers : list Layer) : option (list nat) :=
  match layers with
  | Conv2D _ _ _ s :: _ => s
  | Dense _ _ s :: _ => s
  | _ => None
  end.

(** [model.output_shape] (without the batch axis). *)
Definition output_shape (layers : list Layer) : option (list nat) :=
  input ← input_shape_of layers;
  for_each (fun shape l => compute_output_shape l shape) input layers.

(** What training and evaluation compute from the weights. *)
Class Trainer : Type := {
  Weights : Type;
  Data : Type;
  Metrics : Type;
  (** one epoch of [fit] on the training data *)
  train_epoch : list Layer -> Weights -> Data -> Weights;
  (** [model.evaluate(x, y)]: loss and accuracy *)
  evaluate_weights : list Layer -> Weights -> Data -> Metrics
}.

Section Models.

Context `{Trainer}.

Record Model : Type := mkModel {
  layers : list Layer;
  weights : Weights
}.

(** A checkpoint: the weights, and the layers whose variables they are. *)
Record Checkpoint : Type := mkCheckpoint {
  saved_layers : list Layer;
  saved_weights : Weights
}.

(** [model.evaluate(data)] *)
Definition evaluate (m : Model) (data : Data) : Metrics :=
  evaluate_weights (layers m) (weights m) data.

(** [model.save_weights(path)] *)
Definition save_weights (path : string) (m : Model) (fs : gmap string Checkpoint)
  : gmap string Checkpoint :=
  <[path := mkCheckpoint (layers m) (weights m)]> fs.

(** [model.load_weights(path)]: the variables of the model take the saved
    values; a checkpoint of other layers does not fit. *)
Definition load_weights (path : string) (m : Model) (fs : gmap string Checkpoint)
  : result Model :=
  match fs !! path with
  | None => Raise NotFoundError
  | Some c =>
      if decide (saved_layers c = layers m) then Ok (mkModel (layers m) (saved_weights c))
      else Raise ValueError
  end.

(** [tf.keras.callbacks.ModelCheckpoint(filepath, save_weights_only=True,
    period)]; [filepath] is formatted with the number of the epoch. *)
Record ModelCheckpoint : Type := mkModelCheckpoint {
  filepath : nat -> string;
  period : nat
}.

(** The callback at the end of epoch [epoch] (counted from 0): it saves
    when [period] epochs have passed since the last save. *)
Definition on_epoch_end (cb : ModelCheckpoint) (epochs_since_last_save epoch : nat)
    (m : Model) (fs : gmap string Checkpoint) : nat * gmap string Checkpoint :=
  let since := S epochs_since_last_save in
  if (period cb <=? since)%nat then (O, save_weights (filepath cb (S epoch)) m fs)
  else (since, fs).

(** [model.fit(data, epochs, callbacks=[cb])], from epoch [epoch] on. *)
Fixpoint fit_from (epochs epoch : nat) (cb : ModelCheckpoint) (data : Data)
    (since : nat) (m : Model) (fs : gmap string Checkpoint)
  : Model * gmap string Checkpoint :=
  match epochs with
  | O => (m, fs)
  | S epochs' =>
      let m := mkModel (layers m) (train_epoch (layers m) (weights m) data) in
      let '(since, fs) := on_epoch_end cb since epoch m fs in
      fit_from epochs' (S epoch) cb data since m fs
  end.

Definition fit (m : Model) (data : Data) (epochs : nat) (cb : ModelCheckpoint)
    (fs : gmap string Checkpoint) : Model * gmap string Checkpoint :=
  fit_from epochs 0 cb data 0 m fs.

End Models.

End Keras.

(** ** 0_keras_cnn *)

Module KerasCnn.

Import TfData Tf Keras.

Section Notebook.

Context `{Runtime} `{Ops}.

Definition BUFFER_SIZE : Z := 10000.

Definition BATCH_SIZE : nat := 32.

Definition scale {L : Type} (image : Tensor) (label : L) : Tensor * L :=
  let image := cast float32 image in
  let image := divide image 255 in
  (image, label).

(** [get_dataset], given the two splits [tfds.load] returns. *)
Definition get_dataset {L : Type} (mnist_train mnist_test : Dataset (Tensor * L))
    (batch_size : nat) (buffer_size : Z)
  : Dataset (list (Tensor * L)) * Dataset (list (Tensor * L)) :=
  let train_dataset :=
    TfData.batch batch_size
      (TfData.shuffle buffer_size
         (TfData.cache "" (TfData.map (unpack scale) None mnist_train))) in
  let test_dataset := TfData.batch batch_size (TfData.map (unpack scale) None mnist_test) in
  (train_dataset, test_dataset).

End Notebook.

Definition model : list Layer :=
  [ Conv2D 32 3 (Some relu) (Some [28; 28; 1]%nat);
    MaxPooling2D;
    Flatten;
    Dense 64 (Some relu) None;
    Dense 10 None None ].

End KerasCnn.

(** ** 1_tf_data_tutorial *)

Module TabularData.

Import TfData Keras.

Section Notebook.

Context `{Runtime}.

(** The type of a cell of the table. *)
Context {V : Type}.

(** A pandas [DataFrame]: its columns in order, each a name and the values
    of its rows. *)
Record DataFrame : Type := mkDataFrame {
  n_rows : nat;
  columns : list (string * list V)
}.

(** Row [i]: the cell of every column, under the column's name. *)
Definition row (df : DataFrame) (i : nat) : list (string * V) :=
  omap (fun c => pair c.1 <$> (c.2 !! i)) (columns df).

(** [df.values]: the rows, each the list of its cells. *)
Definition values (df : DataFrame) : list (list V) :=
  (fun i => snd <$> row df i) <$> seq 0 (n_rows df).

(** [df.pop(name)]: the column leaves the frame and its values are
    returned; [KeyError] when there is no such column. *)
Definition pop (name : string) (df : DataFrame) : result (list V * DataFrame) :=
  match list_find (fun c => c.1 = name) (columns df) with
  | Some (j, c) => Ok (c.2, mkDataFrame (n_rows df) (delete j (columns df)))
  | None => Raise KeyError
  end.

(** From [target = df.pop('target')] to [train_dataset]. *)
Definition train_dataset (df : DataFrame) : result (Dataset (list (list V * V))) :=
  '(target, df) ← pop "target" df;
  dataset ← from_tensor_slices2 (values df) target;
  mret (TfData.batch 1 (TfData.shuffle 10000 dataset)).

End Notebook.

Arguments DataFrame V : clear implicits.

Definition get_compiled_model : list Layer :=
  [ Dense 10 (Some relu) None; Dense 10 (Some relu) None; Dense 1 None None ].

End TabularData.

(** ** 4_save_and_load *)

Module SaveLoad.

Import Keras.

Section Notebook.

Context `{Trainer}.

(** Define a simple sequential model; [initial] is the draw of the
    initializers. *)
Definition create_model (initial : Weights) : Model :=
  mkModel
    [ Dense 512 (Some relu) (Some [784%nat]); Dropout 20; Dense 10 None None ]
    initial.

Definition checkpoint_path : string := "training_1/cp.ckpt".

(** Create a callback that saves the model's weights *)
Definition cp_callback : ModelCheckpoint :=
  mkModelCheckpoint (fun _ => checkpoint_path) 1.

(** The notebook up to "Loads the weights": train with the callback, build
    a new model, load the checkpoint and evaluate; the result is the trained
    model and the metrics of the restored one. *)
Definition train_then_restore (initial fresh : Weights) (train test : Data)
    (fs : gmap string Checkpoint) : result (Model * Metrics) :=
  let model := create_model initial in
  let '(trained, fs) := fit model train 10 cp_callback fs in
  let model := create_model fresh in
  model ← load_weights checkpoint_path model fs;
  mret (trained, evaluate model test).

(** "Manually save weights": save, build a new model, restore, evaluate. *)
Definition save_then_restore (model : Model) (fresh : Weights) (test : Data)
    (fs : gmap string Checkpoint) : result Metrics :=
  let fs := save_weights "./checkpoints/my_checkpoint" model fs in
  let model := create_model fresh in
  model ← load_weights "./checkpoints/my_checkpoint" model fs;
  mret (evaluate model test).

End Notebook.

End SaveLoad.

(** ** Notions the statements below are phrased with *)

Module Notions.

Import TfData Tf Keras.

(** The last ['/']-separated segment of a path: the name of a folder. *)
Definition basename (path : string) : string := default "" (last (split "/" path)).

(** The second-to-last ['/']-separated segment of a path: the folder a file
    is in, when the path has one. *)
Definition parent_folder (path : string) : option string :=
  match reverse (split "/" path) with
  | _ :: folder :: _ => Some folder
  | _ => None
  end.

(** A list is a one-hot encoding of [index] over [n] classes. *)
Definition one_hot (n : nat) (index : Z) (v : list Z) : Prop :=
  length v = n /\ 0 <= index < Z.of_nat n /\
  forall j, (j < n)%nat -> v !! j = Some (if decide (Z.of_nat j = index) then 1 else 0).

(** A label map assigns indices below its size. *)
Definition indices_in_range (label_map : gmap string Z) : Prop :=
  map_Forall (fun _ i => 0 <= i < Z.of_nat (size label_map)) label_map.

(** One pass of the loop of [one_hot_encode], for the path the index
    selects. *)
Definition one_hot_step (label_map : gmap string Z) (labels : gmap string (list Z))
    (path : string) : result (gmap string (list Z)) :=
  folder ← getitem (split "/" path) (-2);
  index ← dict_getitem label_map folder;
  encoding ← Np.setitem (Np.zeros (size label_map)) index 1;
  mret (<[path := encoding]> labels).

(** The values a [tf.train.Int64List] takes. *)
Definition int64_value (z : Z) : Prop := - 2 ^ 63 <= z < 2 ^ 63.


(** A shuffle yields the elements of a finite dataset in some order. *)
Definition shuffle_permutes `{Runtime} : Prop :=
  forall (A : Type) (buffer_size : Z) (l : list A),
    exists l', shuffle_elems buffer_size (Finite l) = Finite l' /\ l' ≡ₚ l.

(** The training example a row of the table stands for: its cells other
    than ['target'], in the order of the columns, and its ['target'] cell. *)
Definition example_of {V : Type} (r : list (string * V)) : option (list V * V) :=
  t ← list_find (fun c => c.1 = "target") r;
  Some ((filter (fun c => c.1 <> "target") r).*2, t.2.2).

(** Every column of a frame has a cell for every row. *)
Definition rectangular {V : Type} (df : TabularData.DataFrame V) : Prop :=
  Forall (fun c => length c.2 = TabularData.n_rows df) (TabularData.columns df).

End Notions.

(** ** Small instances to run the notebooks on *)

Module Samples.

Import TfData Tf Keras.

Definition b (n : N) : bytes := [default Byte.x00 (Byte.of_N n)].

(** The number of channels an encoded image was stored with: 1 for the
    image whose first byte is 9, 3 for all others. *)
Definition stored_channels (contents : bytes) : nat :=
  match contents with
  | Byte.x09 :: _ => 1
  | _ => 3
  end.

(** A tensor is a number of channels and the encoded bytes; a record is
    its image byte followed by the entries of its label.  The bucket holds
    the files [part-0] and [part-1], of three and of two records, and a
    file with a one-channel image. *)
#[local] Instance ops : Ops := {|
  Tensor := nat * bytes;
  glob _ := ["gs://tf-data-pipeline/n02085620-Chihuahua";
             "gs://tf-data-pipeline/n02085782-Japanese_spaniel"];
  read_file path := b (N.of_nat (String.length path));
  decode_jpeg channels contents :=
    (if Nat.eqb channels 0 then stored_channels contents else channels, contents);
  convert_image_dtype _ image := image;
  resize _ _ image := image;
  encode_jpeg _ image := image.2;
  cast _ x := x;
  divide x _ := x;
  SerializeToString e :=
    match e !! "image", e !! "label" with
    | Some (BytesList [[i]]), Some (Int64List l) =>
        i :: ((fun z => default Byte.x00 (Byte.of_N (Z.to_N z))) <$> l)
    | _, _ => []
    end;
  parse_single_example s _ :=
    mkParsed (firstn 1 s) ((fun c => Z.of_N (Byte.to_N c)) <$> skipn 1 s);
  tfrecord_records filename _ :=
    if String.eqb filename "part-0" then [b 1 ++ b 0; b 2 ++ b 1; b 3 ++ b 0]
    else if String.eqb filename "part-1" then [b 4 ++ b 1; b 5 ++ b 0]
    else if String.eqb filename "one-channel" then [b 9 ++ b 0]
    else []
|}.

(** Weights are a number, an epoch adds one, the metrics are the weights. *)
#[local] Instance trainer : Trainer := {|
  Weights := nat;
  Data := unit;
  Metrics := nat;
  train_epoch _ w _ := S w;
  evaluate_weights _ w _ := w
|}.

(** The first two rows of [heart.csv], as they are printed. *)
Definition heart : TabularData.DataFrame string :=
  TabularData.mkDataFrame 2
    [ ("age", ["63"; "67"]); ("sex", ["1"; "1"]); ("cp", ["1"; "4"]);
      ("trestbps", ["145"; "160"]); ("chol", ["233"; "286"]); ("fbs", ["1"; "0"]);
      ("restecg", ["2"; "2"]); ("thalach", ["150"; "108"]); ("exang", ["0"; "1"]);
      ("oldpeak", ["2.3"; "1.5"]); ("slope", ["3"; "2"]); ("ca", ["0"; "3"]);
      ("thal", ["2"; "3"]); ("target", ["0"; "1"]) ].

End Samples.

(** ** The cells around the functions above *)

Module Cells.

Import TfData Tf Keras.

(** *** The benchmark *)

(** The element the [i]-th [next(it)] returns, counting from 0; [None]
    when the iteration has ended before ([StopIteration]). *)
Definition next_element {A : Type} (s : Seq A) (i : nat) : option A :=
  first_n (S i) s !! i.

Definition default_timeit_steps : nat := 1000.

Definition newline : string := String (Ascii.ascii_of_nat 10) EmptyString.

(** [k] dots. *)
Fixpoint dots (k : nat) : string :=
  match k with
  | O => EmptyString
  | S k' => dots k' +:+ "."
  end.

(** Benchmark function for dataset: what it prints before the timings, the
    clock left aside; [None] when [next(it)] raises [StopIteration]. *)
Definition timeit {A : Type} (ds : Dataset A) (steps batch_size : nat) : option string :=
  out ← for_each (fun out i =>
                    batch ← next_element (elems ds) i;
                    mret (if Nat.eqb (i mod 10) 0 then out +:+ "." else out))
          EmptyString (seq 0 steps);
  mret (out +:+ newline).

(** [local_ds = train_ds.take(1).cache().repeat()] *)
Definition local_ds {A : Type} (train_ds : Dataset A) : Dataset A :=
  TfData.repeat (TfData.cache "" (TfData.take 1 train_ds)).

(** Paths where images are located *)
Definition FILENAMES : string := "gs://tf-data-pipeline/*/*.jpg".

(** Paths where labels can be parsed *)
Definition FOLDERS : string := "gs://tf-data-pipeline/*".

(** The keys of a dictionary filled in the order of [l], in the order
    [dict.items()] lists them: each at its first insertion. *)
Fixpoint first_occurrences (l : list string) : list string :=
  match l with
  | [] => []
  | x :: l' => x :: filter (fun y => y <> x) (first_occurrences l')
  end.

(** Split the features (image path) from labels, and create the dataset
    from them. *)
Definition labelled_dataset (label_map : gmap string Z) (filepath : list string)
  : result (Dataset (string * list Z)) :=
  dataset ← Benchmark.one_hot_encode label_map filepath;
  let dataset := omap (fun k => pair k <$> dataset !! k) (first_occurrences filepath) in
  let features := (fun i : string * list Z => i.1) <$> dataset in
  let labels := (fun i : string * list Z => i.2) <$> dataset in
  from_tensor_slices2 features labels.

(** From the two listings of the bucket to the dataset of paths and
    labels. *)
Definition notebook_dataset `{Ops} : result (Dataset (string * list Z)) :=
  maps ← Benchmark.get_label_map FOLDERS;
  let label_map := maps.1 in
  let filepath := glob FILENAMES in
  labelled_dataset label_map filepath.

(** *** Saving and loading *)

(** [k] zeros. *)
Fixpoint zero_digits (k : nat) : string :=
  match k with
  | O => EmptyString
  | S k' => String "0" (zero_digits k')
  end.

(** ['{epoch:04d}'.format(epoch=n)] *)
Definition format_04d (n : nat) : string :=
  let digits := pretty n in
  zero_digits (4 - String.length digits) +:+ digits.

(** Include the epoch in the file name *)
Definition checkpoint_path_2 (epoch : nat) : string :=
  "training_2/cp-" +:+ format_04d epoch +:+ ".ckpt".

(** Create a callback that saves the model's weights every 5 epochs *)
Definition cp_callback_2 : ModelCheckpoint := mkModelCheckpoint checkpoint_path_2 5.

Section Training.

Context `{Trainer}.

(** The weights after [n] epochs of [fit]. *)
Fixpoint train_epochs (n : nat) (layers : list Layer) (w : Weights) (data : Data) : Weights :=
  match n with
  | O => w
  | S n' => train_epochs n' layers (train_epoch layers w data) data
  end.

(** Save the weights using the [checkpoint_path] format, then train the
    model with the new callback. *)
Definition train_with_period (initial : Weights) (train : Data)
    (fs : gmap string Checkpoint) : Model * gmap string Checkpoint :=
  let model := SaveLoad.create_model initial in
  let fs := save_weights (checkpoint_path_2 0) model fs in
  fit model train 50 cp_callback_2 fs.

End Training.

Section History.

Context {Loss : Type}.

(** [class LossHistory(keras.callbacks.Callback)] *)
Record LossHistory : Type := mkLossHistory {
  per_batch_losses : list (option Loss)
}.

Definition on_train_begin (self : LossHistory) (logs : gmap string Loss) : LossHistory :=
  mkLossHistory [].

Definition on_batch_end (self : LossHistory) (batch : nat) (logs : gmap string Loss)
  : LossHistory :=
  mkLossHistory (per_batch_losses self ++ [logs !! "loss"]).

(** A run of [fit]: the callback at the start, then at the end of every
    batch, with the logs of that batch. *)
Definition record_batches (self : LossHistory) (begin_logs : gmap string Loss)
    (batch_logs : list (gmap string Loss)) : LossHistory :=
  foldl (fun self bl => on_batch_end self bl.1 bl.2) (on_train_begin self begin_logs)
    (imap pair batch_logs).

End History.

Arguments LossHistory Loss : clear implicits.

End Cells.

(** ** A bucket with two breeds *)
Module Bucket.

Import TfData Tf.

(** The two listings the benchmark starts from: the folders of the bucket
    and the images in them.  Tensors and records are those of
    [Samples.ops]. *)
#[local] Instance two_breeds : Ops := {|
  Tensor := @Tensor Samples.ops;
  glob pattern :=
    if String.eqb pattern "gs://tf-data-pipeline/*" then
      [ "gs://tf-data-pipeline/n02085620-Chihuahua";
        "gs://tf-data-pipeline/n02085782-Japanese_spaniel" ]
    else if String.eqb pattern "gs://tf-data-pipeline/*/*.jpg" then
      [ "gs://tf-data-pipeline/n02085620-Chihuahua/n02085620_10074.jpg";
        "gs://tf-data-pipeline/n02085620-Chihuahua/n02085620_10131.jpg";
        "gs://tf-data-pipeline/n02085782-Japanese_spaniel/n02085782_1039.jpg" ]
    else [];
  read_file := @read_file Samples.ops;
  decode_jpeg := @decode_jpeg Samples.ops;
  convert_image_dtype := @convert_image_dtype Samples.ops;
  resize := @resize Samples.ops;
  encode_jpeg := @encode_jpeg Samples.ops;
  cast := @cast Samples.ops;
  divide := @divide Samples.ops;
  SerializeToString := @SerializeToString Samples.ops;
  parse_single_example := @parse_single_example Samples.ops;
  tfrecord_records := @tfrecord_records Samples.ops
|}.

End Bucket.

(** * Facts *)

(** ** Python loops and indexing *)

Module PyFacts.

Example split_path :
  split "/" "gs://tf-data-pipeline/n02085620-Chihuahua/n02085620_10074.jpg" =
  ["gs:"; ""; "tf-data-pipeline"; "n02085620-Chihuahua"; "n02085620_10074.jpg"].
Proof. reflexivity. Qed.

Example split_no_separator : split "/" "n02085620_10074.jpg" = ["n02085620_10074.jpg"].
Proof. reflexivity. Qed.

Example getitem_second_to_last :
  getitem (split "/" "gs://tf-data-pipeline/n02085620-Chihuahua/n02085620_10074.jpg") (-2)
  = Ok "n02085620-Chihuahua".
Proof. reflexivity. Qed.

Example getitem_out_of_range : getitem (split "/" "n02085620_10074.jpg") (-2) = Raise IndexError.
Proof. reflexivity. Qed.

Lemma split_not_nil sep s : split sep s <> [].
Proof.
  destruct s as [|c s]; simpl; [done|].
  destruct (Ascii.eqb c sep); [done|].
  by destruct (split sep s).
Qed.

Lemma getitem_nat {A : Type} (l : list A) (n : nat) (x : A) :
  l !! n = Some x -> getitem l (Z.of_nat n) = Ok x.
Proof.
  intros Hx. pose proof (lookup_lt_Some _ _ _ Hx) as Hlt.
  unfold getitem.
  destruct (Z.ltb_spec (Z.of_nat n) 0) as [|_]; [lia|].
  destruct (Z.leb_spec 0 (Z.of_nat n)); [|lia].
  destruct (Z.ltb_spec (Z.of_nat n) (Z.of_nat (length l))); [|lia].
  simpl. by rewrite Nat2Z.id, Hx.
Qed.

(** Counting from the end: [l[-k]] is entry [k-1] of the reversed list. *)
Lemma getitem_from_end {A : Type} (l : list A) (k : nat) :
  getitem l (- Z.of_nat (S k)) =
  match reverse l !! k with
  | Some x => Ok x
  | None => Raise IndexError
  end.
Proof.
  unfold getitem.
  destruct (Z.ltb_spec (- Z.of_nat (S k)) 0) as [_|]; [|lia].
  destruct (decide (k < length l)%nat) as [Hk|Hk].
  - destruct (Z.leb_spec 0 (- Z.of_nat (S k) + Z.of_nat (length l))); [|lia].
    destruct (Z.ltb_spec (- Z.of_nat (S k) + Z.of_nat (length l)) (Z.of_nat (length l)));
      [|lia].
    simpl. rewrite reverse_lookup by done.
    replace (Z.to_nat (- Z.of_nat (S k) + Z.of_nat (length l))) with (length l - S k)%nat
      by lia.
    done.
  - rewrite (lookup_ge_None_2 (reverse l) k) by (rewrite length_reverse; lia).
    destruct (Z.leb_spec 0 (- Z.of_nat (S k) + Z.of_nat (length l))); [lia|done].
Qed.

Lemma for_each_app {A S : Type} (body : S -> A -> result S) acc xs ys :
  for_each body acc (xs ++ ys) =
  match for_each body acc xs with
  | Ok acc' => for_each body acc' ys
  | Raise e => Raise e
  end.
Proof.
  revert acc. induction xs as [|x xs IH]; intros acc; simpl; [done|].
  destruct (body acc x); simpl; [apply IH|done].
Qed.

Lemma for_each_pure {A S : Type} (f : S -> A -> S) acc (xs : list A) :
  for_each (M := result) (fun acc x => mret (f acc x)) acc xs = Ok (foldl f acc xs).
Proof. revert acc. induction xs as [|x xs IH]; intros acc; simpl; [done|apply IH]. Qed.

(** [for i in range(len(l)): ... l[i] ...] visits the entries of [l] in
    order, each with its position. *)
Lemma for_each_range_getitem {A S : Type} (l : list A) (body : S -> Z -> A -> result S) acc :
  for_each (fun acc i => x ← getitem l i; body acc i x) acc (range (length l)) =
  for_each (fun acc p => body acc (Z.of_nat p.1) p.2) acc (imap pair l).
Proof.
  unfold range.
  assert (Hgen : forall suf pre acc, l = pre ++ suf ->
    for_each (fun acc i => x ← getitem l i; body acc i x) acc
      (Z.of_nat <$> seq (length pre) (length suf)) =
    for_each (fun acc p => body acc (Z.of_nat p.1) p.2) acc
      (imap (fun j x => (length pre + j, x)%nat) suf)).
  { induction suf as [|x suf IH]; intros pre acc0 Hl; simpl; [done|].
    rewrite (getitem_nat l (length pre) x); simpl.
    2:{ rewrite Hl. by rewrite list_lookup_middle. }
    rewrite Nat.add_0_r. destruct (body acc0 _ x) as [acc1|e]; simpl; [|done].
    specialize (IH (pre ++ [x]) acc1). rewrite length_app in IH. simpl in IH.
    rewrite Nat.add_1_r in IH.
    etrans; [apply IH; by rewrite <- app_assoc|].
    f_equal. apply imap_ext. intros. simpl. f_equal. lia. }
  apply (Hgen l [] acc). done.
Qed.

End PyFacts.

(** ** The label maps of the benchmark *)

Module LabelFacts.

Import PyFacts Notions Tf Benchmark.

Lemma getitem_last_segment path :
  getitem (split "/" path) (-1) = Ok (basename path).
Proof.
  change (-1) with (- Z.of_nat 1). rewrite getitem_from_end.
  unfold basename. rewrite <- head_reverse, head_lookup.
  pose proof (split_not_nil "/" path) as Hne.
  destruct (reverse (split "/" path)) as [|x r] eqn:Hr; [|done].
  apply (f_equal reverse) in Hr. rewrite reverse_involutive in Hr. done.
Qed.

Lemma getitem_parent_folder path :
  getitem (split "/" path) (-2) =
  match parent_folder path with
  | Some folder => Ok folder
  | None => Raise IndexError
  end.
Proof.
  change (-2) with (- Z.of_nat 2). rewrite getitem_from_end.
  unfold parent_folder. by destruct (reverse (split "/" path)) as [|? [|? ?]].
Qed.

Lemma labels_loop (folders acc : list string) :
  for_each (fun labels folder =>
      name ← getitem (split "/" folder) (-1); mret (labels ++ [name]))
    acc folders = Ok (acc ++ (basename <$> folders)).
Proof.
  revert acc. induction folders as [|f folders IH]; intros acc; simpl.
  - by rewrite app_nil_r.
  - rewrite getitem_last_segment. simpl. rewrite IH. by rewrite <- app_assoc.
Qed.

(** A dictionary filled in order is the map of the pairs, the later pair
    winning. *)
Lemma foldl_insert_list_to_map `{Countable K} {V : Type} (l : list (K * V)) (m : gmap K V) :
  foldl (fun m p => <[p.1 := p.2]> m) m l = list_to_map (reverse l) ∪ m.
Proof.
  revert m. induction l as [|[k v] l IH]; intros m; simpl.
  - by rewrite (left_id_L ∅ (∪)).
  - rewrite IH, reverse_cons, list_to_map_app. simpl.
    rewrite <- (assoc_L (∪)). f_equal.
    by rewrite insert_empty, <- insert_union_singleton_l.
Qed.

Section LabelMap.

Context `{Ops}.

(** What [get_label_map] returns, in closed form. *)
Lemma get_label_map_eq path :
  let labels := basename <$> glob path in
  get_label_map path =
  Ok (list_to_map (reverse (imap (fun j name => (name, Z.of_nat j)) labels)),
      list_to_map (reverse (imap (fun j name => (Z.of_nat j, name)) labels))).
Proof.
  intros labels. unfold get_label_map.
  rewrite labels_loop. simpl. fold labels.
  rewrite (for_each_range_getitem labels (fun m i name => mret (<[name := i]> m))).
  rewrite (for_each_pure (fun m p => <[p.2 := Z.of_nat p.1]> m)). simpl.
  rewrite (for_each_range_getitem labels (fun m i name => mret (<[i := name]> m))).
  rewrite (for_each_pure (fun m p => <[Z.of_nat p.1 := p.2]> m)). simpl.
  do 2 f_equal.
  - assert (imap (fun j name => (name, Z.of_nat j)) labels =
            (fun p : nat * string => (p.2, Z.of_nat p.1)) <$> imap pair labels) as ->.
    { rewrite fmap_imap. by apply imap_ext. }
    rewrite <- (right_id_L ∅ (∪) (list_to_map _)).
    by rewrite <- foldl_insert_list_to_map, foldl_fmap.
  - assert (imap (fun j name => (Z.of_nat j, name)) labels =
            (fun p : nat * string => (Z.of_nat p.1, p.2)) <$> imap pair labels) as ->.
    { rewrite fmap_imap. by apply imap_ext. }
    rewrite <- (right_id_L ∅ (∪) (list_to_map _)).
    by rewrite <- foldl_insert_list_to_map, foldl_fmap.
Qed.

(** The label map sends a name to the position it is listed at, when no
    name is listed twice. *)
Lemma label_map_lookup (names : list string) (name : string) (i : Z) :
  NoDup names ->
  (list_to_map (reverse (imap (fun j name => (name, Z.of_nat j)) names)) : gmap string Z)
    !! name = Some i <->
  exists j, names !! j = Some name /\ i = Z.of_nat j.
Proof.
  intros Hnd. rewrite <- elem_of_list_to_map.
  - rewrite elem_of_reverse, elem_of_lookup_imap. split.
    + intros (j & y & Heq & Hy). injection Heq as -> ->. eauto.
    + intros (j & Hj & ->). by exists j, name.
  - rewrite fmap_reverse, reverse_Permutation.
    rewrite fmap_imap.
    rewrite (imap_ext _ (const id)) by done.
    by rewrite imap_const, list_fmap_id.
Qed.

(** The inverse map sends a position to the name listed there. *)
Lemma inv_label_map_lookup (names : list string) (name : string) (i : Z) :
  (list_to_map (reverse (imap (fun j name => (Z.of_nat j, name)) names)) : gmap Z string)
    !! i = Some name <->
  exists j, names !! j = Some name /\ i = Z.of_nat j.
Proof.
  rewrite <- elem_of_list_to_map.
  - rewrite elem_of_reverse, elem_of_lookup_imap. split.
    + intros (j & y & Heq & Hy). injection Heq as -> ->. eauto.
    + intros (j & Hj & ->). by exists j, name.
  - rewrite fmap_reverse, reverse_Permutation.
    rewrite fmap_imap.
    rewrite (imap_ext _ (fun j _ => Z.of_nat j)) by done.
    rewrite (imap_seq_0 names Z.of_nat).
    apply NoDup_fmap_2; [apply _|apply NoDup_seq].
Qed.

(** C9. When the basenames of the folders [get_label_map] lists are
    pairwise distinct, the two dictionaries it returns are inverse to each
    other: [inv_label_map[label_map[name]] = name] for every listed
    basename, [label_map[inv_label_map[i]] = i] for every index
    [0 <= i < n], and they have no other keys. *)
Theorem get_label_map_inverse (path : string) :
  let names := basename <$> glob path in
  NoDup names ->
  exists label_map inv_label_map,
    get_label_map path = Ok (label_map, inv_label_map) /\
    (forall name, name ∈ names ->
       exists i, label_map !! name = Some i /\ inv_label_map !! i = Some name) /\
    (forall i, 0 <= i < Z.of_nat (length names) ->
       exists name, inv_label_map !! i = Some name /\ label_map !! name = Some i) /\
    (forall name i, label_map !! name = Some i ->
       name ∈ names /\ 0 <= i < Z.of_nat (length names)) /\
    (forall i name, inv_label_map !! i = Some name ->
       name ∈ names /\ 0 <= i < Z.of_nat (length names)).
Proof.
  intros names Hnd. eexists _, _. split; [apply get_label_map_eq|].
  fold names. split_and!.
  - intros name [j Hj]%list_elem_of_lookup. exists (Z.of_nat j).
    rewrite label_map_lookup, inv_label_map_lookup by done. split; by exists j.
  - intros i Hi.
    destruct (lookup_lt_is_Some_2 names (Z.to_nat i)) as [name Hname]; [lia|].
    exists name. rewrite label_map_lookup, inv_label_map_lookup by done.
    split; exists (Z.to_nat i); split; try done; lia.
  - intros name i (j & Hj & ->)%label_map_lookup; [|done].
    pose proof (lookup_lt_Some _ _ _ Hj). split; [|lia].
    apply list_elem_of_lookup; eauto.
  - intros i name (j & Hj & ->)%inv_label_map_lookup.
    pose proof (lookup_lt_Some _ _ _ Hj). split; [|lia].
    apply list_elem_of_lookup; eauto.
Qed.

End LabelMap.

End LabelFacts.

(** ** The one-hot encoding of the benchmark *)

Module OneHotFacts.

Import PyFacts Notions Tf Benchmark LabelFacts.

Lemma for_each_imap_pair {A St I : Type} (body : St -> A -> result St) (g : nat -> I) acc
    (l : list A) :
  for_each (fun acc (p : I * A) => body acc p.2) acc (imap (fun j x => (g j, x)) l) =
  for_each body acc l.
Proof.
  revert g acc. induction l as [|x l IH]; intros g acc; simpl; [done|].
  destruct (body acc x); simpl; [|done]. apply (IH (g ∘ S)).
Qed.

Lemma one_hot_encode_loop (label_map : gmap string Z) (filepath : list string) :
  one_hot_encode label_map filepath = for_each (one_hot_step label_map) ∅ filepath.
Proof.
  unfold one_hot_encode.
  rewrite (for_each_range_getitem filepath
             (fun labels _ path => one_hot_step label_map labels path)).
  apply (for_each_imap_pair (one_hot_step label_map) id).
Qed.

Lemma setitem_zeros (n : nat) (i : Z) :
  0 <= i < Z.of_nat n ->
  Np.setitem (Np.zeros n) i 1 = Ok (<[Z.to_nat i := 1]> (Np.zeros n)).
Proof.
  intros Hi. unfold Np.setitem, Np.zeros. rewrite length_replicate.
  destruct (Z.ltb_spec i 0); [lia|].
  destruct (Z.leb_spec 0 i); [|lia].
  by destruct (Z.ltb_spec i (Z.of_nat n)); [|lia].
Qed.

(** Writing a 1 into a vector of zeros gives a one-hot encoding. *)
Lemma one_hot_insert (n : nat) (i : Z) :
  0 <= i < Z.of_nat n -> one_hot n i (<[Z.to_nat i := 1]> (Np.zeros n)).
Proof.
  intros Hi. unfold one_hot, Np.zeros. split_and!; try lia.
  - by rewrite length_insert, length_replicate.
  - intros j Hj. destruct (decide (Z.of_nat j = i)) as [<-|Hne].
    + rewrite Nat2Z.id. apply list_lookup_insert_eq. by rewrite length_replicate.
    + rewrite list_lookup_insert_ne by lia. by apply lookup_replicate_2.
Qed.

Section Steps.

Context (label_map : gmap string Z).

Lemma step_ok labels path folder i :
  parent_folder path = Some folder -> label_map !! folder = Some i ->
  0 <= i < Z.of_nat (size label_map) ->
  one_hot_step label_map labels path =
  Ok (<[path := <[Z.to_nat i := 1]> (Np.zeros (size label_map))]> labels).
Proof.
  intros Hp Hf Hi. unfold one_hot_step. rewrite getitem_parent_folder, Hp. simpl.
  unfold dict_getitem. rewrite Hf. simpl. by rewrite setitem_zeros.
Qed.

Lemma step_no_folder labels path :
  parent_folder path = None -> one_hot_step label_map labels path = Raise IndexError.
Proof. intros Hp. unfold one_hot_step. by rewrite getitem_parent_folder, Hp. Qed.

Lemma step_no_key labels path folder :
  parent_folder path = Some folder -> label_map !! folder = None ->
  one_hot_step label_map labels path = Raise KeyError.
Proof.
  intros Hp Hf. unfold one_hot_step. rewrite getitem_parent_folder, Hp. simpl.
  unfold dict_getitem. by rewrite Hf.
Qed.

(** A step that returns has stored, under the path, the zero vector with a
    1 written at the index of the path's folder. *)
Lemma step_inv labels path labels' :
  one_hot_step label_map labels path = Ok labels' ->
  exists folder i v,
    parent_folder path = Some folder /\ label_map !! folder = Some i /\
    Np.setitem (Np.zeros (size label_map)) i 1 = Ok v /\
    labels' = <[path := v]> labels.
Proof.
  unfold one_hot_step. rewrite getitem_parent_folder.
  destruct (parent_folder path) as [folder|] eqn:Hp; simpl; [|done].
  unfold dict_getitem. destruct (label_map !! folder) as [i|] eqn:Hi; simpl; [|done].
  destruct (Np.setitem _ i 1) as [v|] eqn:Hv; simpl; [|done].
  intros [= <-]. by exists folder, i, v.
Qed.

Lemma loop_keys filepath acc d :
  for_each (one_hot_step label_map) acc filepath = Ok d ->
  forall path, is_Some (d !! path) <-> path ∈ filepath \/ is_Some (acc !! path).
Proof.
  revert acc. induction filepath as [|p filepath IH]; intros acc; simpl.
  - intros [= <-] path. rewrite elem_of_nil. tauto.
  - destruct (one_hot_step label_map acc p) as [acc'|] eqn:Hstep; simpl; [|done].
    intros Hd path. rewrite (IH _ Hd), elem_of_cons.
    apply step_inv in Hstep as (folder & i & v & _ & _ & _ & ->).
    rewrite lookup_insert_is_Some.
    assert (p = path <-> path = p) by (split; congruence).
    destruct (decide (p = path)); tauto.
Qed.

Lemma loop_values (P : string -> list Z -> Prop) filepath acc d :
  (forall labels path labels', one_hot_step label_map labels path = Ok labels' ->
     exists v, labels' = <[path := v]> labels /\ P path v) ->
  for_each (one_hot_step label_map) acc filepath = Ok d ->
  map_Forall P acc -> map_Forall P d.
Proof.
  intros Hstep. revert acc. induction filepath as [|p filepath IH]; intros acc; simpl.
  - by intros [= <-].
  - destruct (one_hot_step label_map acc p) as [acc'|] eqn:Hp; simpl; [|done].
    intros Hd Hacc. apply (IH _ Hd).
    destruct (Hstep _ _ _ Hp) as (v & -> & Hv). by apply map_Forall_insert_2.
Qed.

Lemma loop_returns filepath acc :
  indices_in_range label_map ->
  (forall path, path ∈ filepath ->
     exists folder, parent_folder path = Some folder /\ is_Some (label_map !! folder)) ->
  exists d, for_each (one_hot_step label_map) acc filepath = Ok d.
Proof.
  intros Hrange. revert acc. induction filepath as [|p filepath IH]; intros acc Hall; simpl.
  - by eexists.
  - destruct (Hall p) as (folder & Hp & [i Hi]); [by left|].
    rewrite (step_ok _ _ _ _ Hp Hi (Hrange _ _ Hi)). simpl.
    apply IH. intros. apply Hall. by right.
Qed.

Lemma loop_key_error filepath acc :
  indices_in_range label_map ->
  (forall path, path ∈ filepath -> is_Some (parent_folder path)) ->
  (exists path folder, path ∈ filepath /\ parent_folder path = Some folder /\
     label_map !! folder = None) ->
  for_each (one_hot_step label_map) acc filepath = Raise KeyError.
Proof.
  intros Hrange. revert acc.
  induction filepath as [|p filepath IH]; intros acc Hall (path & folder & Hin & Hp & Hf).
  - by apply elem_of_nil in Hin.
  - simpl. destruct (Hall p) as [fp Hfp]; [by left|].
    destruct (label_map !! fp) as [i|] eqn:Hi.
    + rewrite (step_ok _ _ _ _ Hfp Hi (Hrange _ _ Hi)). simpl.
      apply IH; [intros; apply Hall; by right|].
      exists path, folder. split_and!; try done.
      apply elem_of_cons in Hin as [->|]; [congruence|done].
    + by rewrite (step_no_key _ _ _ Hfp Hi).
Qed.

End Steps.


(** The values [one_hot_encode] returns are zero vectors with a 1 written
    at the index of the path's folder. *)
Lemma one_hot_encode_values (label_map : gmap string Z) (filepath : list string) d path v :
  one_hot_encode label_map filepath = Ok d -> d !! path = Some v ->
  exists folder i,
    parent_folder path = Some folder /\ label_map !! folder = Some i /\
    Np.setitem (Np.zeros (size label_map)) i 1 = Ok v.
Proof.
  rewrite one_hot_encode_loop. intros Hd Hv.
  apply (loop_values label_map
           (fun path v => exists folder i,
              parent_folder path = Some folder /\ label_map !! folder = Some i /\
              Np.setitem (Np.zeros (size label_map)) i 1 = Ok v) _ _ _) in Hd.
  - by apply Hd in Hv.
  - intros labels p labels' (folder & i & w & ? & ? & ? & ->)%step_inv.
    exists w. split; [done|]. by exists folder, i.
  - apply map_Forall_empty.
Qed.

End OneHotFacts.

(** ** Batches and repetitions *)

Module TfDataFacts.

Import TfData.

Example chunks_5_by_2 : chunks 2 [1; 2; 3; 4; 5] = [[1; 2]; [3; 4]; [5]].
Proof. reflexivity. Qed.

Example batch_after_repeat :
  first_n 3 (elems (batch 2 (TfData.repeat (from_tensor_slices [1; 2; 3])))) =
  [[1; 2]; [3; 1]; [2; 3]].
Proof. reflexivity. Qed.

Example repeat_after_batch :
  first_n 3 (elems (TfData.repeat (batch 2 (from_tensor_slices [1; 2; 3])))) =
  [[1; 2]; [3]; [1; 2]].
Proof. reflexivity. Qed.

Example shard_8_in_3 : shard_list 3 1 [0; 1; 2; 3; 4; 5; 6; 7] = [1; 4; 7].
Proof. reflexivity. Qed.

Section Chunks.

Context {A : Type}.
Implicit Types (l : list A) (b n k : nat).

Lemma chunks_fuel_enough fuel b l :
  (1 <= b)%nat -> (length l <= fuel)%nat -> chunks_fuel fuel b l = chunks b l.
Proof.
  intros Hb. unfold chunks.
  remember (length l) as m eqn:Hm.
  revert l fuel Hm. induction (lt_wf m) as [m _ IH]. intros l fuel -> Hfuel.
  destruct l as [|x l]; [by destruct fuel|].
  destruct fuel as [|fuel]; [simpl in Hfuel; lia|].
  cbn [length chunks_fuel]. f_equal.
  assert (length (drop b (x :: l)) < length (x :: l))%nat as Hlt
    by (rewrite length_drop; simpl; lia).
  rewrite (IH _ Hlt _ fuel eq_refl) by (simpl in *; lia).
  rewrite (IH _ Hlt _ (length l) eq_refl) by (simpl in *; lia).
  done.
Qed.

Lemma chunks_cons b l :
  (1 <= b)%nat -> l <> [] -> chunks b l = firstn b l :: chunks b (skipn b l).
Proof.
  intros Hb Hl. destruct l as [|x l]; [done|].
  unfold chunks at 1. cbn [length chunks_fuel]. f_equal.
  apply chunks_fuel_enough; [done|]. rewrite length_drop. simpl. lia.
Qed.

(** Groups do not straddle a boundary that falls on a multiple of the
    batch size. *)
Lemma chunks_app b l1 l2 :
  (1 <= b)%nat -> (b | length l1)%nat -> chunks b (l1 ++ l2) = chunks b l1 ++ chunks b l2.
Proof.
  intros Hb. remember (length l1) as m eqn:Hm.
  revert l1 Hm. induction (lt_wf m) as [m _ IH]. intros l1 -> [q Hq].
  destruct l1 as [|x l1]; [done|].
  assert (b <= length (x :: l1))%nat as Hle.
  { rewrite Hq. destruct q; [simpl in Hq; lia|]. lia. }
  rewrite (chunks_cons b ((x :: l1) ++ l2)), (chunks_cons b (x :: l1)) by done.
  rewrite take_app_le, drop_app_le by done.
  rewrite <- app_comm_cons. f_equal.
  apply (IH (length (drop b (x :: l1)))); [|done|].
  - rewrite length_drop. simpl. lia.
  - rewrite length_drop, Hq. exists (q - 1)%nat.
    destruct q; [simpl in Hq; lia|]. lia.
Qed.

Lemma chunks_elem_of b l c x : (1 <= b)%nat -> c ∈ chunks b l -> x ∈ c -> x ∈ l.
Proof.
  intros Hb. remember (length l) as m eqn:Hm.
  revert l Hm. induction (lt_wf m) as [m _ IH]. intros l -> Hc Hx.
  destruct l as [|y l]; [by apply elem_of_nil in Hc|].
  rewrite chunks_cons in Hc by done.
  apply elem_of_cons in Hc as [->|Hc].
  - rewrite <- (take_drop b (y :: l)). apply elem_of_app. by left.
  - rewrite <- (take_drop b (y :: l)). apply elem_of_app. right.
    apply (IH (length (drop b (y :: l)))); [|done..].
    rewrite length_drop. simpl. lia.
Qed.

Lemma cycle_S k l : cycle (S k) l = l ++ cycle k l.
Proof. done. Qed.

Lemma cycle_add j k l : cycle (j + k) l = cycle j l ++ cycle k l.
Proof.
  induction j as [|j IH]; [done|].
  cbn [Nat.add]. by rewrite !cycle_S, IH, app_assoc.
Qed.

Lemma length_cycle k l : length (cycle k l) = (k * length l)%nat.
Proof. induction k as [|k IH]; [done|]. rewrite cycle_S, length_app, IH. lia. Qed.

Lemma cycle_cycle j k l : cycle j (cycle k l) = cycle (j * k) l.
Proof.
  induction j as [|j IH]; [done|].
  by rewrite cycle_S, IH, <- cycle_add.
Qed.

Lemma cycle_nil k : cycle k ([] : list A) = [].
Proof. induction k as [|k IH]; [done|]. by rewrite cycle_S, IH. Qed.

Lemma chunks_cycle b k l :
  (1 <= b)%nat -> (b | length l)%nat -> chunks b (cycle k l) = cycle k (chunks b l).
Proof.
  intros Hb Hdiv. induction k as [|k IH]; [done|].
  by rewrite !cycle_S, chunks_app, IH.
Qed.

End Chunks.





Lemma take_chunks {A : Type} (n b : nat) (l : list A) :
  (1 <= b)%nat -> firstn n (chunks b l) = chunks b (firstn (n * b) l).
Proof.
  intros Hb. revert l. induction n as [|n IH]; intros l; [done|].
  destruct l as [|x l]; [by rewrite take_nil|].
  assert (firstn (S n * b) (x :: l) <> []) as Hne by (destruct b; [lia|done]).
  rewrite (chunks_cons b (x :: l)), (chunks_cons b (firstn _ _)) by done.
  cbn [firstn]. change (S n * b)%nat with (b + n * b)%nat.
  rewrite take_take, Nat.min_l by lia. f_equal.
  rewrite IH. by rewrite take_drop_commute.
Qed.

(** Batching is grouping the elements in the order an iteration yields
    them, on an endless dataset too. *)
Lemma batch_first_n {A : Type} (b n : nat) (d : Dataset A) :
  (1 <= b)%nat ->
  first_n n (elems (batch b d)) = chunks b (first_n (n * b) (elems d)).
Proof.
  intros Hb. unfold batch. cbn [elems].
  destruct (elems d) as [l|l]; cbn [first_n]; [by apply take_chunks|].
  assert (b | length (cycle b l))%nat as Hdiv
    by (rewrite length_cycle; apply Nat.divide_factor_l).
  rewrite <- (chunks_cycle b n (cycle b l)) by done.
  by rewrite cycle_cycle, take_chunks.
Qed.

End TfDataFacts.

(** ** The two versions of [build_dataset_test] *)

Module BatchFacts.

Import TfData Tf Benchmark Notions TfDataFacts.



Section Versions.

Context `{Runtime} `{Ops}.

Local Abbreviation parse r := (parse_single_example r feature_description).



End Versions.


End BatchFacts.

(** ** Stages, labels and layers *)

Module StageFacts.

Import TfData Tf Keras Benchmark Notions.

Lemma cache_stages_snoc (os : list Op) (o : Op) :
  cache_stages (os ++ [o]) =
  cache_stages os ++ match o with OpCache f => [f] | _ => [] end.
Proof. unfold cache_stages. rewrite omap_app. by destruct o. Qed.

(** C7. The only cache stage [build_dataset] adds to the chain it is given
    is the framework's [cache]: one stage when its [cache] argument is
    truthy, on the file the argument names when it is a string and in
    memory (the empty file name) otherwise, and none when the argument is
    falsy; the elements are the same with and without it. *)
Theorem build_dataset_cache_stage `{Runtime} `{Ops} (NUM_TOTAL_IMAGES : nat) {L : Type}
    (dataset : Dataset (string * L)) (batch_size : nat) (cache : value) :
  cache_stages (ops (build_dataset NUM_TOTAL_IMAGES dataset batch_size cache)) =
    cache_stages (ops dataset) ++
    (if truthy cache
     then [match cache with VStr filename => filename | _ => "" end]
     else []) /\
  elems (build_dataset NUM_TOTAL_IMAGES dataset batch_size cache) =
    elems (build_dataset NUM_TOTAL_IMAGES dataset batch_size (VBool false)).
Proof.
  unfold build_dataset. split.
  - destruct (truthy cache); [destruct cache|];
      unfold prefetch, TfData.cache, batch, TfData.repeat, TfData.map, shuffle;
      cbn [ops]; rewrite !cache_stages_snoc; by rewrite ?app_nil_r.
  - by destruct (truthy cache); [destruct cache|].
Qed.

(** C10. The functions mapped over the datasets hand the label on as it
    came: [scale] of the CNN notebook, [get_bytes_label] and
    [process_image] of the benchmark change the image component only. *)
Theorem preprocessing_keeps_label `{Ops} {L : Type} (image : Tensor) (filepath : string)
    (raw_bytes : bytes) (label : L) :
  (KerasCnn.scale image label).2 = label /\
  (get_bytes_label filepath label).2 = label /\
  (process_image raw_bytes label).2 = label /\
  (unpack KerasCnn.scale (image, label)).2 = label /\
  (unpack get_bytes_label (filepath, label)).2 = label /\
  (unpack process_image (raw_bytes, label)).2 = label.
Proof. by split_and!. Qed.

(** C5. The model of the CNN notebook is a sequential stack whose first
    layer is a 2-D convolution with 32 filters, kernel 3 and relu on inputs
    of shape 28 x 28 x 1, and whose last layer is a dense layer of 10 units
    without activation, so that the model outputs 10 logits. *)
Theorem cnn_model_shape :
  head KerasCnn.model = Some (Conv2D 32 3 (Some relu) (Some [28; 28; 1]%nat)) /\
  input_shape_of KerasCnn.model = Some [28; 28; 1]%nat /\
  last KerasCnn.model = Some (Dense 10 None None) /\
  output_shape KerasCnn.model = Some [10%nat].
Proof. split_and!; vm_compute; reflexivity. Qed.

End StageFacts.

(** ** Checkpoints *)

Module CheckpointFacts.

Import Keras SaveLoad.

Section Checkpoints.

Context `{Trainer}.

Lemma load_after_save (path : string) (m fresh : Model) (fs : gmap string Checkpoint) :
  layers fresh = layers m ->
  load_weights path fresh (save_weights path m fs) = Ok (mkModel (layers m) (weights m)).
Proof.
  intros Hl. unfold load_weights, save_weights. rewrite lookup_insert_eq. cbn.
  rewrite decide_True by done. by rewrite Hl.
Qed.

(** C3. Saving and then restoring is a round trip on the weights: after
    [m.save_weights(path)], or after a save by the [ModelCheckpoint]
    callback at the end of an epoch, [load_weights] on a fresh model with
    the same layers returns a model with the weights [m] had when it was
    saved, and evaluating it gives the loss and accuracy of [m]. *)
Theorem save_load_round_trip (path : string) (m fresh : Model) (data : Data)
    (fs : gmap string Checkpoint) (cb : ModelCheckpoint) (since epoch : nat) :
  layers fresh = layers m ->
  (exists restored,
     load_weights path fresh (save_weights path m fs) = Ok restored /\
     weights restored = weights m /\
     evaluate restored data = evaluate m data) /\
  ((period cb <= S since)%nat ->
   exists restored,
     load_weights (filepath cb (S epoch)) fresh (on_epoch_end cb since epoch m fs).2
       = Ok restored /\
     weights restored = weights m /\
     evaluate restored data = evaluate m data).
Proof.
  intros Hl. split.
  - eexists. split; [by apply load_after_save|]. done.
  - intros Hsave. unfold on_epoch_end.
    destruct (Nat.leb_spec (period cb) (S since)); [|lia]. cbn [snd].
    eexists. split; [by apply load_after_save|]. done.
Qed.

(** With the notebook's callback, every epoch ends with a save. *)
Lemma fit_from_saves (epochs epoch since : nat) (data : Data) (m : Model)
    (fs : gmap string Checkpoint) :
  (1 <= epochs)%nat ->
  let '(trained, fs') := fit_from epochs epoch cp_callback data since m fs in
  layers trained = layers m /\
  fs' !! checkpoint_path = Some (mkCheckpoint (layers trained) (weights trained)).
Proof.
  revert epoch since m fs. induction epochs as [|epochs IH]; intros epoch since m fs He; [lia|].
  cbn [fit_from]. unfold on_epoch_end. cbn [period cp_callback Nat.leb filepath].
  destruct epochs as [|epochs].
  - cbn [fit_from]. split; [done|]. unfold save_weights. by rewrite lookup_insert_eq.
  - specialize (IH (S epoch) 0%nat
      (mkModel (layers m) (train_epoch (layers m) (weights m) data))
      (save_weights checkpoint_path
         (mkModel (layers m) (train_epoch (layers m) (weights m) data)) fs)).
    destruct (fit_from (S epochs) _ _ _ _ _ _) as [trained fs'].
    apply IH. lia.
Qed.

(** Training with the callback and restoring into a new model gives the
    metrics of the trained model. *)
Lemma train_then_restore_same (initial fresh : Weights) (train test : Data)
    (fs : gmap string Checkpoint) :
  exists trained,
    train_then_restore initial fresh train test fs = Ok (trained, evaluate trained test).
Proof.
  unfold train_then_restore, fit.
  pose proof (fit_from_saves 10 0 0 train (create_model initial) fs) as Hfit.
  destruct (fit_from 10 0 cp_callback train 0 (create_model initial) fs) as [trained fs'].
  destruct Hfit as [Hlayers Hfs]; [lia|].
  exists trained. unfold load_weights. rewrite Hfs. cbn.
  rewrite decide_True by done. cbn. unfold evaluate. cbn. by rewrite Hlayers.
Qed.

Lemma save_then_restore_same (model : Model) (fresh : Weights) (test : Data)
    (fs : gmap string Checkpoint) :
  layers model = layers (create_model fresh) ->
  save_then_restore model fresh test fs = Ok (evaluate model test).
Proof.
  intros Hl. unfold save_then_restore.
  rewrite load_after_save by done. cbn. unfold evaluate. cbn. done.
Qed.

End Checkpoints.

Lemma save_load_round_trip_witness :
  exists restored,
    load_weights (H := Samples.trainer) "./checkpoints/my_checkpoint"
      (create_model (H := Samples.trainer) 0%nat)
      (save_weights (H := Samples.trainer) "./checkpoints/my_checkpoint"
         (create_model (H := Samples.trainer) 7%nat) ∅) = Ok restored /\
    weights restored = 7%nat /\
    evaluate restored () = 7%nat.
Proof.
  apply (save_load_round_trip (H := Samples.trainer) "./checkpoints/my_checkpoint"
           (create_model (H := Samples.trainer) 7%nat)
           (create_model (H := Samples.trainer) 0%nat) () ∅
           cp_callback 0%nat 0%nat).
  reflexivity.
Defined.

End CheckpointFacts.

(** ** Shards and the files they are written to *)

Module ShardFacts.

Import TfData Tf Benchmark Notions LabelFacts.



Example output_file_12 : output_file 12 = "output_file-part-12.tfrecord".
Proof. reflexivity. Qed.







Section Shards.

Context `{Ops}.

(** The record written for an element: the image read, decoded, resized
    and encoded again, as a bytes feature, and the label as an int64
    feature. *)
Local Abbreviation record_of x :=
  (SerializeToString
     (<["label" := Int64List x.2]>
        (<["image" := BytesList
             [encode_jpeg true
                (resize (224%nat, 224%nat) "nearest" (decode_jpeg 3 (read_file x.1)))]]>
           (∅ : gmap string Feature)))).

Local Abbreviation shard_file n_shards l i :=
  (mkTFRecordFile "GZIP" ((fun x => record_of x) <$> shard_list n_shards i l)).



End Shards.


End ShardFacts.

(** ** The table and its training examples *)

Module TabularFacts.

Import TfData Notions TabularData TfDataFacts.

Lemma chunks_one {A : Type} (l : list A) : chunks 1 l = (fun x => [x]) <$> l.
Proof.
  induction l as [|x l IH]; [done|].
  rewrite chunks_cons by done. cbn [firstn skipn]. by rewrite take_0, drop_0, IH.
Qed.

Lemma filter_all {A : Type} (P : A -> Prop) `{forall x, Decision (P x)} (l : list A) :
  Forall P l -> filter P l = l.
Proof.
  induction 1 as [|x l Hx _ IH]; [done|]. by rewrite filter_cons_True, IH.
Qed.

Section Rows.

Context {V : Type} (t : string) (i : nat).

Local Abbreviation cell := (fun c : string * list V => pair c.1 <$> (c.2 !! i)).

Lemma omap_cell_cons (name : string) (vs : list V) (cols : list (string * list V)) :
  omap cell ((name, vs) :: cols) =
  match vs !! i with
  | Some v => (name, v) :: omap cell cols
  | None => omap cell cols
  end.
Proof. cbn. by destruct (vs !! i). Qed.

Lemma filter_row (cols : list (string * list V)) :
  filter (fun c => c.1 <> t) (omap cell cols) = omap cell (filter (fun c => c.1 <> t) cols).
Proof.
  induction cols as [|[name vs] cols IH]; [done|].
  rewrite (filter_cons _ (name, vs)), omap_cell_cons. cbn [fst].
  destruct (decide (name <> t)) as [Hne|Heq].
  - rewrite omap_cell_cons. destruct (vs !! i) as [v|]; [|done].
    rewrite filter_cons. cbn [fst]. rewrite decide_True by done. by rewrite IH.
  - destruct (vs !! i) as [v|]; [|done].
    rewrite filter_cons. cbn [fst]. by rewrite decide_False.
Qed.

(** Taking a column out by position is filtering by its name, when no
    name occurs twice. *)
Lemma delete_is_filter (cols : list (string * list V)) (j : nat) (c : string * list V) :
  NoDup cols.*1 -> cols !! j = Some c -> c.1 = t ->
  delete j cols = filter (fun c => c.1 <> t) cols.
Proof.
  revert j. induction cols as [|a cols IH]; intros j Hnd Hj Hc; [done|].
  rewrite fmap_cons in Hnd. apply NoDup_cons in Hnd as [Ha Hnd].
  rewrite filter_cons. destruct j as [|j].
  - injection Hj as ->. rewrite decide_False by (by intros []).
    cbn. symmetry. apply filter_all, Forall_forall.
    intros y Hy Hyt. apply Ha, list_elem_of_fmap. exists y. split; [congruence|done].
  - rewrite decide_True.
    + cbn. f_equal. by apply IH.
    + intros Hat. apply Ha, list_elem_of_fmap. exists c. split; [congruence|].
      by eapply list_elem_of_lookup_2.
Qed.

Lemma find_in_row (cols : list (string * list V)) (j : nat) (c : string * list V) (v : V) :
  list_find (fun c => c.1 = t) cols = Some (j, c) -> c.2 !! i = Some v ->
  exists j', list_find (fun c => c.1 = t) (omap cell cols) = Some (j', (t, v)).
Proof.
  revert j. induction cols as [|[name vs] cols IH]; intros j Hfind Hv; [done|].
  cbn [list_find fst] in Hfind. rewrite omap_cell_cons.
  destruct (decide (name = t)) as [->|Hne].
  - injection Hfind as <- <-. cbn [snd] in Hv. rewrite Hv.
    exists 0%nat. cbn [list_find fst]. by rewrite decide_True.
  - destruct (list_find _ cols) as [[j0 c0]|] eqn:Hcols; [|done].
    injection Hfind as <- <-.
    destruct (IH j0 eq_refl Hv) as [j' Hj'].
    destruct (vs !! i) as [w|]; [|by exists j'].
    exists (S j'). cbn [list_find fst]. rewrite decide_False by done. by rewrite Hj'.
Qed.

Lemma length_row (cols : list (string * list V)) :
  Forall (fun c => is_Some (c.2 !! i)) cols -> length (omap cell cols) = length cols.
Proof.
  induction 1 as [|[name vs] cols [v Hv] _ IH]; [done|].
  rewrite omap_cell_cons. cbn [snd] in Hv. rewrite Hv. cbn. by rewrite IH.
Qed.

End Rows.

Section Frame.

Context `{Runtime} {V : Type}.

(** C6. The dataset handed to [model.fit] holds, in some order, one batch
    of one example per row of the table: the row's cells other than
    ['target'] (13 of them for the 14 columns of the heart table) paired
    with the row's ['target'] cell. *)
Theorem train_dataset_pairs_rows (df : DataFrame V) :
  shuffle_permutes ->
  rectangular df ->
  NoDup (columns df).*1 ->
  "target" ∈ (columns df).*1 ->
  exists train batches examples,
    train_dataset df = Ok train /\
    elems train = Finite batches /\
    mapM (fun i => example_of (row df i)) (seq 0 (n_rows df)) = Some examples /\
    batches ≡ₚ (fun e => [e]) <$> examples /\
    Forall (fun e => S (length e.1) = length (columns df)) examples /\
    (length (columns df) = 14%nat -> Forall (fun e => length e.1 = 13%nat) examples).
Proof.
  intros Hsh Hrect Hnd [c0 [Hc0 Hin]]%list_elem_of_fmap.
  destruct (list_find_elem_of (fun c => c.1 = "target") _ c0 Hin) as [[j c] Hfind]; [done|].
  pose proof Hfind as (Hj & Hc & _)%list_find_Some.
  assert (length c.2 = n_rows df) as Hlen
    by exact (Forall_lookup_1 _ _ _ _ Hrect Hj).
  assert (forall i, (i < n_rows df)%nat ->
            Forall (fun c : string * list V => is_Some (c.2 !! i)) (columns df)) as Hcells.
  { intros i Hi. eapply Forall_impl; [apply Hrect|]. intros c' Hc'. cbn in Hc'.
    apply lookup_lt_is_Some_2. by rewrite Hc'. }
  set (df' := mkDataFrame (n_rows df) (delete j (columns df))).
  assert (forall i, row df' i = filter (fun c => c.1 <> "target") (row df i)) as Hrow.
  { intros i. unfold row, df'. cbn [columns].
    by rewrite (delete_is_filter "target" _ _ _ Hnd Hj Hc), filter_row. }
  destruct (Hsh _ 10000 (zip (values df') c.2)) as (l' & Hl' & Hperm).
  exists (TfData.batch 1 (TfData.shuffle 10000 (from_tensor_slices (zip (values df') c.2)))),
    ((fun x => [x]) <$> l'), (zip (values df') c.2).
  assert (Forall (fun e : list V * V => S (length e.1) = length (columns df))
            (zip (values df') c.2)) as Hwidth.
  { apply Forall_forall. intros [feat tv] [i Hi]%list_elem_of_lookup.
    apply lookup_zip_with_Some in Hi as (feat' & tv' & [= <- <-] & Hfeat & _).
    unfold values in Hfeat. rewrite list_lookup_fmap in Hfeat.
    apply fmap_Some in Hfeat as (i' & [-> Hi']%lookup_seq & ->). cbn [fst].
    rewrite length_fmap. unfold row, df'. cbn [columns].
    rewrite length_row.
    - rewrite length_delete by eauto. apply lookup_lt_Some in Hj. lia.
    - apply Forall_delete. by apply Hcells. }
  split_and!.
  - unfold train_dataset, pop. rewrite Hfind. cbn [mbind result_bind].
    unfold from_tensor_slices2. fold df'.
    replace (length (values df')) with (length c.2)
      by (unfold values; by rewrite length_fmap, length_seq).
    by rewrite Nat.eqb_refl.
  - unfold batch, shuffle, from_tensor_slices. cbn [elems]. rewrite Hl'.
    by rewrite chunks_one.
  - apply mapM_Some, Forall2_same_length_lookup_2.
    + rewrite length_zip_with, length_seq. unfold values.
      rewrite length_fmap, length_seq, Hlen. unfold df'. cbn [n_rows]. lia.
    + intros i i' [feat tv] [-> Hi]%lookup_seq Hzip.
      apply lookup_zip_with_Some in Hzip as (feat' & tv' & [= <- <-] & Hfeat & Htv).
      unfold values in Hfeat. rewrite list_lookup_fmap, lookup_seq_lt in Hfeat by done.
      injection Hfeat as <-. cbn [Nat.add].
      unfold example_of.
      destruct (find_in_row "target" i _ _ _ _ Hfind Htv) as [j' Hj'].
      fold (row df i) in Hj'. by rewrite Hj', Hrow.
  - by rewrite Hperm.
  - done.
  - intros H14. eapply Forall_impl; [apply Hwidth|]. intros e He. cbn in He. lia.
Qed.

End Frame.

End TabularFacts.

(** ** The helpers of the benchmark *)

Module HelperFacts.

Import TfData Tf Benchmark Notions PyFacts LabelFacts OneHotFacts.

(** C8, amended. For a label map with indices below its size and file
    paths whose parent folder is a key of the map, [one_hot_encode] returns
    a dictionary whose keys are the file paths and whose value for a path is
    the one-hot encoding, over as many classes as the map has keys, of the
    index of its parent folder.  When every path has a parent folder and
    some parent folder is not a key of the map, the call raises
    [KeyError]. *)
Theorem one_hot_encode_spec (label_map : gmap string Z) (filepath : list string) :
  indices_in_range label_map ->
  ((forall path, path ∈ filepath ->
      exists folder, parent_folder path = Some folder /\ is_Some (label_map !! folder)) ->
   exists d,
     one_hot_encode label_map filepath = Ok d /\
     (forall path, is_Some (d !! path) <-> path ∈ filepath) /\
     (forall path v, d !! path = Some v ->
        exists folder i,
          parent_folder path = Some folder /\ label_map !! folder = Some i /\
          one_hot (size label_map) i v)) /\
  ((forall path, path ∈ filepath -> is_Some (parent_folder path)) ->
   (exists path folder,
      path ∈ filepath /\ parent_folder path = Some folder /\ label_map !! folder = None) ->
   one_hot_encode label_map filepath = Raise KeyError).
Proof.
  intros Hrange. split.
  - intros Hall.
    destruct (loop_returns label_map filepath ∅ Hrange Hall) as [d Hd].
    exists d. rewrite one_hot_encode_loop. split_and!; [done| |].
    + intros path. rewrite (loop_keys _ _ _ _ Hd path), lookup_empty.
      split; [intros [?|[? ?]]; done|by left].
    + intros path v Hv. rewrite <- one_hot_encode_loop in Hd.
      destruct (one_hot_encode_values _ _ _ _ _ Hd Hv) as (folder & i & Hp & Hi & Hset).
      exists folder, i. split_and!; [done..|].
      rewrite setitem_zeros in Hset by (by eapply Hrange).
      injection Hset as <-. apply one_hot_insert. by eapply Hrange.
  - intros Hall Hbad. rewrite one_hot_encode_loop. by apply loop_key_error.
Qed.

(** A path without a parent folder ends the loop with [IndexError], when
    the paths before it are in folders the map knows. *)
Lemma one_hot_encode_no_folder (label_map : gmap string Z) (before after : list string)
    (path : string) :
  indices_in_range label_map ->
  (forall p, p ∈ before ->
     exists folder, parent_folder p = Some folder /\ is_Some (label_map !! folder)) ->
  parent_folder path = None ->
  one_hot_encode label_map (before ++ path :: after) = Raise IndexError.
Proof.
  intros Hrange Hbefore Hpath. rewrite one_hot_encode_loop, for_each_app.
  destruct (loop_returns label_map before ∅ Hrange Hbefore) as [d ->].
  simpl. by rewrite step_no_folder.
Qed.

(** C8 as stated fails: the second path is in a folder that is not a key
    of the map, but the first path has no ['/'] and so no second-to-last
    segment, and the call raises [IndexError] there. *)
Lemma one_hot_encode_index_error :
  indices_in_range {["n02085620-Chihuahua" := 0]} /\
  parent_folder "gs://tf-data-pipeline/n02085936-Maltese_dog/n02085936_10073.jpg"
    = Some "n02085936-Maltese_dog" /\
  ({["n02085620-Chihuahua" := 0]} : gmap string Z) !! "n02085936-Maltese_dog" = None /\
  one_hot_encode {["n02085620-Chihuahua" := 0]}
    ["n02085620_10074.jpg";
     "gs://tf-data-pipeline/n02085936-Maltese_dog/n02085936_10073.jpg"]
    = Raise IndexError.
Proof.
  split_and!; try (vm_compute; reflexivity).
  apply map_Forall_singleton. vm_compute. by split.
Qed.

Lemma one_hot_encode_spec_witness :
  exists d,
    one_hot_encode {["n02085620-Chihuahua" := 0; "n02085782-Japanese_spaniel" := 1]}
      ["gs://tf-data-pipeline/n02085620-Chihuahua/n02085620_10074.jpg";
       "gs://tf-data-pipeline/n02085782-Japanese_spaniel/n02085782_1039.jpg"] = Ok d /\
    (forall path, is_Some (d !! path) <->
       path ∈ ["gs://tf-data-pipeline/n02085620-Chihuahua/n02085620_10074.jpg";
               "gs://tf-data-pipeline/n02085782-Japanese_spaniel/n02085782_1039.jpg"]) /\
    (forall path v, d !! path = Some v ->
       exists folder i,
         parent_folder path = Some folder /\
         ({["n02085620-Chihuahua" := 0; "n02085782-Japanese_spaniel" := 1]}
            : gmap string Z) !! folder = Some i /\
         one_hot
           (size ({["n02085620-Chihuahua" := 0; "n02085782-Japanese_spaniel" := 1]}
                    : gmap string Z)) i v).
Proof.
  apply (one_hot_encode_spec
           {["n02085620-Chihuahua" := 0; "n02085782-Japanese_spaniel" := 1]}
           ["gs://tf-data-pipeline/n02085620-Chihuahua/n02085620_10074.jpg";
            "gs://tf-data-pipeline/n02085782-Japanese_spaniel/n02085782_1039.jpg"]).
  - apply map_Forall_insert_2; [vm_compute; by split|].
    apply map_Forall_singleton. vm_compute. by split.
  - intros path Hpath.
    repeat (apply elem_of_cons in Hpath as [->|Hpath]);
      [eexists; split; [reflexivity|vm_compute; eauto]..|by apply elem_of_nil in Hpath].
Defined.


End HelperFacts.

(** ** The theorems at work on the sample instances *)

Module Runs.

Import TfData Tf Benchmark Notions TabularData.

Lemma get_label_map_inverse_witness :
  exists label_map inv_label_map,
    get_label_map (H0 := Samples.ops) "gs://tf-data-pipeline/*"
      = Ok (label_map, inv_label_map) /\
    (exists i, label_map !! "n02085782-Japanese_spaniel" = Some i /\
               inv_label_map !! i = Some "n02085782-Japanese_spaniel") /\
    (exists name, inv_label_map !! 0 = Some name /\ label_map !! name = Some 0).
Proof.
  destruct (LabelFacts.get_label_map_inverse (H := Samples.ops) "gs://tf-data-pipeline/*")
    as (label_map & inv_label_map & Heq & Hname & Hindex & _).
  - cbv zeta. compute_done.
  - exists label_map, inv_label_map. split_and!; [done| |].
    + apply Hname. right. by left.
    + apply Hindex. cbn. lia.
Defined.


Lemma train_dataset_pairs_rows_witness :
  exists train batches examples,
    train_dataset (H := one_reader) Samples.heart = Ok train /\
    elems train = Finite batches /\
    examples =
      [ (["63"; "1"; "1"; "145"; "233"; "1"; "2"; "150"; "0"; "2.3"; "3"; "0"; "2"], "0");
        (["67"; "1"; "4"; "160"; "286"; "0"; "2"; "108"; "1"; "1.5"; "2"; "3"; "3"], "1") ] /\
    batches ≡ₚ (fun e => [e]) <$> examples.
Proof.
  destruct (TabularFacts.train_dataset_pairs_rows (H := one_reader) Samples.heart)
    as (train & batches & examples & Htrain & Helems & Hex & Hperm & _).
  - intros A buffer_size l. exists (reverse l). split; [done|apply reverse_Permutation].
  - unfold rectangular. cbn. repeat constructor.
  - cbv zeta. compute_done.
  - cbv zeta. compute_done.
  - exists train, batches, examples. split_and!; [done..| |done].
    vm_compute in Hex. congruence.
Defined.

End Runs.

(** ** Listings in which a folder name occurs twice *)
Module ListingFacts.

Import Tf Benchmark Notions PyFacts LabelFacts.

(** Filling the label map one name further. *)
Lemma label_map_snoc (names : list string) (a : string) :
  (list_to_map (reverse (imap (fun j name => (name, Z.of_nat j)) (names ++ [a])))
     : gmap string Z) =
  <[a := Z.of_nat (length names)]>
    (list_to_map (reverse (imap (fun j name => (name, Z.of_nat j)) names))).
Proof.
  rewrite imap_app, reverse_app. cbn. by rewrite Nat.add_0_r.
Qed.

(** The label map sends a name to the last position it is listed at. *)
Lemma label_map_last (names : list string) (name : string) (i : Z) :
  (list_to_map (reverse (imap (fun j name => (name, Z.of_nat j)) names)) : gmap string Z)
    !! name = Some i <->
  exists j, i = Z.of_nat j /\ names !! j = Some name /\
            forall j', (j < j')%nat -> names !! j' <> Some name.
Proof.
  revert i. induction names as [|a names IH] using rev_ind; intros i.
  - cbn. rewrite lookup_empty. split; [done|]. by intros (j & _ & ? & _).
  - rewrite label_map_snoc. destruct (decide (a = name)) as [->|Hne].
    + rewrite lookup_insert_eq. split.
      * intros [= <-]. exists (length names). split_and!; [done| |].
        -- by rewrite lookup_app_r, Nat.sub_diag by lia.
        -- intros j' Hj'. rewrite lookup_ge_None_2; [done|].
           rewrite length_app. simpl. lia.
      * intros (j & -> & Hj & Hlast). f_equal. f_equal.
        destruct (decide (j = length names)) as [->|Hj']; [done|].
        pose proof (lookup_lt_Some _ _ _ Hj) as Hlt.
        rewrite length_app in Hlt. simpl in Hlt.
        exfalso. apply (Hlast (length names)); [lia|].
        by rewrite lookup_app_r, Nat.sub_diag by lia.
    + rewrite lookup_insert_ne by done. rewrite IH. split.
      * intros (j & -> & Hj & Hlast). exists j. split_and!; [done| |].
        -- by apply lookup_app_l_Some.
        -- intros j' Hj' Hname. apply lookup_app_Some in Hname as [Hname|[_ Hname]].
           ++ by apply (Hlast j').
           ++ apply list_lookup_singleton_Some in Hname as [_ ?]. done.
      * intros (j & -> & Hj & Hlast). exists j. split_and!; [done| |].
        -- apply lookup_app_Some in Hj as [Hj|[_ Hj]]; [done|].
           apply list_lookup_singleton_Some in Hj as [_ ?]. done.
        -- intros j' Hj' Hname. apply (Hlast j' Hj'). by apply lookup_app_l_Some.
Qed.

Section Listing.

Context `{Ops}.

(** X1. For every listing of folders, also one in which a basename
    occurs twice, [get_label_map] returns; [inv_label_map] sends every
    position to the basename listed there, [label_map] sends a basename to
    the last position it is listed at, and
    [inv_label_map[label_map[name]] = name]. *)
Theorem get_label_map_any_listing (path : string) :
  exists label_map inv_label_map,
    get_label_map path = Ok (label_map, inv_label_map) /\
    (forall i name,
       inv_label_map !! i = Some name <->
       exists j, (basename <$> glob path) !! j = Some name /\ i = Z.of_nat j) /\
    (forall name i,
       label_map !! name = Some i <->
       exists j, i = Z.of_nat j /\ (basename <$> glob path) !! j = Some name /\
                 forall j', (j < j')%nat -> (basename <$> glob path) !! j' <> Some name) /\
    (forall name i, label_map !! name = Some i -> inv_label_map !! i = Some name).
Proof.
  eexists _, _. split; [apply get_label_map_eq|]. cbv zeta. split_and!.
  - intros i name. apply inv_label_map_lookup.
  - intros name i. apply label_map_last.
  - intros name i (j & -> & Hj & _)%label_map_last.
    apply inv_label_map_lookup. by exists j.
Qed.

End Listing.

End ListingFacts.

(** ** [one_hot_encode] on any label map and any list of paths *)
Module EncodingFacts.

Import Tf Benchmark Notions PyFacts LabelFacts OneHotFacts.

(** An equation between closed terms, by evaluating its left-hand side. *)
Ltac evaluated :=
  lazymatch goal with
  | |- ?x = ?y => exact (eq_refl y <: x = y)
  end.

(** What the loop of [one_hot_encode] computes for one path, before it is
    stored. *)
Local Abbreviation encoding label_map path :=
  (folder ← getitem (split "/" path) (-2);
   index ← dict_getitem label_map folder;
   Np.setitem (Np.zeros (size label_map)) index 1).

Lemma setitem_ok {A : Type} (l : list A) (i : Z) (x : A) :
  - Z.of_nat (length l) <= i < Z.of_nat (length l) ->
  Np.setitem l i x =
  Ok (<[Z.to_nat (if i <? 0 then i + Z.of_nat (length l) else i) := x]> l).
Proof.
  intros Hi. unfold Np.setitem. cbv zeta.
  set (j := if i <? 0 then i + Z.of_nat (length l) else i).
  assert (0 <= j < Z.of_nat (length l)) as [H0 Hn].
  { subst j. destruct (Z.ltb_spec i 0); lia. }
  apply Z.leb_le in H0. apply Z.ltb_lt in Hn. by rewrite H0, Hn.
Qed.

Lemma setitem_raise {A : Type} (l : list A) (i : Z) (x : A) :
  ~ (- Z.of_nat (length l) <= i < Z.of_nat (length l)) ->
  Np.setitem l i x = Raise (if decide (int64_value i) then IndexError else OverflowError).
Proof.
  intros Hi. unfold Np.setitem. cbv zeta.
  set (j := if i <? 0 then i + Z.of_nat (length l) else i).
  assert ((0 <=? j) && (j <? Z.of_nat (length l)) = false) as ->.
  { apply andb_false_iff.
    destruct (Z.leb_spec 0 j) as [H0|H0]; [|by left]. right.
    apply Z.ltb_ge. subst j. destruct (Z.ltb_spec i 0); lia. }
  unfold int64_value. destruct (decide _) as [H64|H64].
  - destruct (Z.ltb_spec i (- 2 ^ 63)); [lia|].
    destruct (Z.leb_spec (2 ^ 63) i); [lia|done].
  - destruct (Z.ltb_spec i (- 2 ^ 63)); [done|].
    destruct (Z.leb_spec (2 ^ 63) i); [done|lia].
Qed.

Lemma setitem_inv {A : Type} (l : list A) (i : Z) (x : A) (l' : list A) :
  Np.setitem l i x = Ok l' ->
  - Z.of_nat (length l) <= i < Z.of_nat (length l) /\
  l' = <[Z.to_nat (if i <? 0 then i + Z.of_nat (length l) else i) := x]> l.
Proof.
  intros Hset.
  destruct (decide (- Z.of_nat (length l) <= i < Z.of_nat (length l))) as [Hi|Hi].
  - split; [done|]. rewrite setitem_ok in Hset by done. by injection Hset.
  - by rewrite setitem_raise in Hset.
Qed.

Section Loop.

Context (label_map : gmap string Z).

Lemma step_encoding labels path :
  one_hot_step label_map labels path =
  (v ← encoding label_map path; mret (<[path := v]> labels)).
Proof.
  unfold one_hot_step.
  destruct (getitem (split "/" path) (-2)) as [folder|]; [|done]. cbn.
  destruct (dict_getitem label_map folder) as [index|]; [|done]. cbn.
  by destruct (Np.setitem _ index 1).
Qed.

Lemma loop_encodings filepath acc :
  Forall (fun p => exists v, encoding label_map p = Ok v) filepath ->
  exists d,
    for_each (one_hot_step label_map) acc filepath = Ok d /\
    forall p, d !! p =
              if decide (p ∈ filepath)
              then match encoding label_map p with Ok v => Some v | Raise _ => None end
              else acc !! p.
Proof.
  intros Hall. revert acc. induction Hall as [|p filepath [v Hv] _ IH]; intros acc.
  - exists acc. split; [done|]. intros p. rewrite decide_False; [done|apply not_elem_of_nil].
  - cbn [for_each]. rewrite step_encoding, Hv. cbn.
    destruct (IH (<[p := v]> acc)) as (d & -> & Hd). exists d. split; [done|].
    intros q. rewrite Hd.
    destruct (decide (q ∈ filepath)) as [Hq|Hq].
    + rewrite decide_True; [done|by right].
    + destruct (decide (q = p)) as [->|Hne].
      * rewrite decide_True by left. by rewrite lookup_insert_eq, Hv.
      * rewrite lookup_insert_ne by done. rewrite decide_False; [done|].
        by intros [?|?]%elem_of_cons.
Qed.

Lemma loop_returned filepath acc d :
  for_each (one_hot_step label_map) acc filepath = Ok d ->
  Forall (fun p => exists v, encoding label_map p = Ok v) filepath.
Proof.
  revert acc. induction filepath as [|p filepath IH]; intros acc Hd; [done|].
  cbn [for_each] in Hd. rewrite step_encoding in Hd.
  destruct (encoding label_map p) as [v|] eqn:Hv; [|done].
  constructor; [exists v; exact Hv|]. cbn in Hd. by eapply IH.
Qed.



End Loop.

(** X2. When [one_hot_encode] returns for a list of paths, it returns the
    same dictionary for every list with the same paths, in whatever order
    and however often each occurs. *)
Theorem one_hot_encode_same_paths (label_map : gmap string Z) (filepath filepath' : list string)
    (d : gmap string (list Z)) :
  (forall p, p ∈ filepath <-> p ∈ filepath') ->
  one_hot_encode label_map filepath = Ok d ->
  one_hot_encode label_map filepath' = Ok d.
Proof.
  rewrite !one_hot_encode_loop. intros Hsame Hd.
  pose proof (loop_returned _ _ _ _ Hd) as Hall.
  destruct (loop_encodings label_map filepath ∅ Hall) as (d0 & Hd0 & Hlook).
  assert (d0 = d) as -> by congruence.
  destruct (loop_encodings label_map filepath' ∅) as (d' & Hd' & Hlook').
  { apply Forall_forall. intros p Hp. rewrite Forall_forall in Hall.
    by apply Hall, Hsame. }
  rewrite Hd'. f_equal. apply map_eq. intros p. rewrite Hlook, Hlook'.
  destruct (decide (p ∈ filepath)) as [Hp|Hp].
  - by rewrite decide_True by (by apply Hsame).
  - by rewrite decide_False by (by rewrite <- Hsame).
Qed.

Lemma one_hot_encode_same_paths_witness :
  one_hot_encode {["n02085620-Chihuahua" := 0; "n02085782-Japanese_spaniel" := 1]}
    [ "gs://tf-data-pipeline/n02085782-Japanese_spaniel/n02085782_1039.jpg";
      "gs://tf-data-pipeline/n02085620-Chihuahua/n02085620_10074.jpg";
      "gs://tf-data-pipeline/n02085782-Japanese_spaniel/n02085782_1039.jpg" ] =
  Ok {[ "gs://tf-data-pipeline/n02085620-Chihuahua/n02085620_10074.jpg" := [1; 0];
        "gs://tf-data-pipeline/n02085782-Japanese_spaniel/n02085782_1039.jpg" := [0; 1] ]}.
Proof.
  apply (one_hot_encode_same_paths _
           [ "gs://tf-data-pipeline/n02085620-Chihuahua/n02085620_10074.jpg";
             "gs://tf-data-pipeline/n02085782-Japanese_spaniel/n02085782_1039.jpg" ]).
  - intros p. rewrite !elem_of_cons, !elem_of_nil. tauto.
  - evaluated.
Defined.

(** X3. Whatever the label map, every value of the dictionary
    [one_hot_encode] returns is a one-hot encoding over as many classes as
    the map has keys: of the index [i] the map gives the path's folder when
    [0 <= i], and of [n + i] when [-n <= i < 0], as NumPy counts a negative
    index from the end. *)
Theorem one_hot_encode_values_any_map (label_map : gmap string Z) (filepath : list string)
    (d : gmap string (list Z)) (path : string) (v : list Z) :
  one_hot_encode label_map filepath = Ok d ->
  d !! path = Some v ->
  exists folder i,
    parent_folder path = Some folder /\
    label_map !! folder = Some i /\
    - Z.of_nat (size label_map) <= i < Z.of_nat (size label_map) /\
    one_hot (size label_map) (if i <? 0 then i + Z.of_nat (size label_map) else i) v.
Proof.
  intros Hd Hv.
  destruct (one_hot_encode_values _ _ _ _ _ Hd Hv) as (folder & i & Hp & Hi & Hset).
  exists folder, i. split; [done|]. split; [done|]. split.
  - apply setitem_inv in Hset as [Hrange _]. unfold Np.zeros in Hrange.
    by rewrite length_replicate in Hrange.
  - apply setitem_inv in Hset as [Hrange ->]. unfold Np.zeros in Hrange |- *.
    rewrite length_replicate in Hrange |- *.
    apply one_hot_insert. destruct (Z.ltb_spec i 0); lia.
Qed.

Lemma one_hot_encode_values_any_map_witness :
  exists folder i,
    parent_folder "gs://tf-data-pipeline/n02085782-Japanese_spaniel/n02085782_1039.jpg"
      = Some folder /\
    ({["n02085620-Chihuahua" := 0; "n02085782-Japanese_spaniel" := -2]} : gmap string Z)
      !! folder = Some i /\
    - Z.of_nat (size ({["n02085620-Chihuahua" := 0; "n02085782-Japanese_spaniel" := -2]}
                        : gmap string Z)) <= i <
      Z.of_nat (size ({["n02085620-Chihuahua" := 0; "n02085782-Japanese_spaniel" := -2]}
                        : gmap string Z)) /\
    one_hot (size ({["n02085620-Chihuahua" := 0; "n02085782-Japanese_spaniel" := -2]}
                     : gmap string Z))
      (if i <? 0
       then i + Z.of_nat (size ({["n02085620-Chihuahua" := 0;
                                  "n02085782-Japanese_spaniel" := -2]} : gmap string Z))
       else i)
      [1; 0].
Proof.
  apply (one_hot_encode_values_any_map
           {["n02085620-Chihuahua" := 0; "n02085782-Japanese_spaniel" := -2]}
           [ "gs://tf-data-pipeline/n02085782-Japanese_spaniel/n02085782_1039.jpg" ]
           {[ "gs://tf-data-pipeline/n02085782-Japanese_spaniel/n02085782_1039.jpg"
                := [1; 0] ]}
           "gs://tf-data-pipeline/n02085782-Japanese_spaniel/n02085782_1039.jpg" [1; 0]).
  - evaluated.
  - evaluated.
Defined.



End EncodingFacts.

(** ** From the listings to the dataset of paths and labels *)
Module AssemblyFacts.

Import TfData Tf Benchmark Notions Cells PyFacts LabelFacts OneHotFacts EncodingFacts.

Lemma elem_of_first_occurrences (l : list string) (x : string) :
  x ∈ first_occurrences l <-> x ∈ l.
Proof.
  induction l as [|a l IH]; [done|]. cbn [first_occurrences].
  rewrite !elem_of_cons, list_elem_of_filter, IH.
  destruct (decide (x = a)); tauto.
Qed.

Lemma NoDup_first_occurrences (l : list string) : NoDup (first_occurrences l).
Proof.
  induction l as [|a l IH]; [constructor|]. cbn [first_occurrences].
  constructor; [|by apply NoDup_filter].
  rewrite list_elem_of_filter. tauto.
Qed.

(** The items of a dictionary that has all of [keys]. *)
Lemma items_keys {V : Type} (d : gmap string V) (keys : list string) :
  (forall k, k ∈ keys -> is_Some (d !! k)) ->
  (omap (fun k => pair k <$> d !! k) keys).*1 = keys.
Proof.
  induction keys as [|k keys IH]; intros Hall; [done|].
  destruct (Hall k) as [v Hv]; [by left|].
  cbn. rewrite Hv. cbn. f_equal. apply IH. intros. apply Hall. by right.
Qed.

Lemma labelled_dataset_returns (label_map : gmap string Z) (filepath : list string)
    (d : gmap string (list Z)) :
  one_hot_encode label_map filepath = Ok d ->
  exists items,
    labelled_dataset label_map filepath = Ok (from_tensor_slices items) /\
    items.*1 = first_occurrences filepath /\
    (forall p v, (p, v) ∈ items <-> d !! p = Some v) /\
    length items = size d.
Proof.
  intros Hd. unfold labelled_dataset. rewrite Hd. cbn.
  set (items := omap (fun k => pair k <$> d !! k) (first_occurrences filepath)).
  rewrite one_hot_encode_loop in Hd. pose proof (loop_keys _ _ _ _ Hd) as Hkeys.
  assert (items.*1 = first_occurrences filepath) as Hfst.
  { apply items_keys. intros k Hk. rewrite elem_of_first_occurrences in Hk.
    apply Hkeys. by left. }
  assert (forall p v, (p, v) ∈ items <-> d !! p = Some v) as Hitems.
  { intros p v. unfold items. rewrite list_elem_of_omap. split.
    - intros (k & _ & Hk). destruct (d !! k) as [w|] eqn:Hw; [|done].
      cbn in Hk. by injection Hk as -> ->.
    - intros Hv. exists p. split; [|by rewrite Hv].
      rewrite elem_of_first_occurrences.
      assert (is_Some (d !! p)) as Hs by (by eexists).
      apply Hkeys in Hs as [?|[? Hempty]]; [done|].
      by rewrite lookup_empty in Hempty. }
  exists items. split_and!; [|done|done|].
  - unfold from_tensor_slices2. fold (items.*1) (items.*2).
    rewrite !length_fmap, Nat.eqb_refl. by rewrite zip_fst_snd.
  - rewrite <- length_map_to_list. apply Permutation_length, NoDup_Permutation.
    + apply (NoDup_fmap_1 fst). rewrite Hfst. apply NoDup_first_occurrences.
    + apply NoDup_map_to_list.
    + intros [p v]. by rewrite Hitems, elem_of_map_to_list.
Qed.

(** X5. The dataset of paths and labels has one element for every key of
    the dictionary [one_hot_encode] returns, in the order the paths are
    first listed in, with the encoding stored under the path; the two
    lists it is made from have the same length, so no [ValueError] is
    raised, and an exception of [one_hot_encode] is passed on. *)
Theorem labelled_dataset_items (label_map : gmap string Z) (filepath : list string) :
  match one_hot_encode label_map filepath with
  | Ok d =>
      exists items,
        labelled_dataset label_map filepath = Ok (from_tensor_slices items) /\
        items.*1 = first_occurrences filepath /\
        NoDup items.*1 /\
        (forall p v, (p, v) ∈ items <-> d !! p = Some v) /\
        length items = size d
  | Raise e => labelled_dataset label_map filepath = Raise e
  end.
Proof.
  destruct (one_hot_encode label_map filepath) as [d|e] eqn:Hd.
  - destruct (labelled_dataset_returns _ _ _ Hd) as (items & ? & Hfst & ? & ?).
    exists items. split_and!; [done..| |done|done].
    rewrite Hfst. apply NoDup_first_occurrences.
  - unfold labelled_dataset. by rewrite Hd.
Qed.

Section Listing.

Context `{Ops}.

(** X6. When no two listed folders have the same name and every listed
    image lies in a listed folder, the cells from the two listings to
    [from_tensor_slices] return a dataset with the image paths in the
    order they are first listed in, each with the one-hot encoding of the
    position of its folder in the listing of the folders. *)
Theorem notebook_dataset_labels :
  let names := basename <$> glob FOLDERS in
  NoDup names ->
  (forall p, p ∈ glob FILENAMES ->
     exists folder, parent_folder p = Some folder /\ folder ∈ names) ->
  exists items,
    notebook_dataset = Ok (from_tensor_slices items) /\
    items.*1 = first_occurrences (glob FILENAMES) /\
    forall p v, (p, v) ∈ items ->
      exists folder j,
        parent_folder p = Some folder /\ names !! j = Some folder /\
        one_hot (length names) (Z.of_nat j) v.
Proof.
  intros names Hnd Hfiles. unfold notebook_dataset.
  rewrite get_label_map_eq. fold names. cbn.
  set (label_map := list_to_map (reverse (imap (fun j name => (name, Z.of_nat j)) names))
                    : gmap string Z).
  assert (forall name i, label_map !! name = Some i <->
            exists j, names !! j = Some name /\ i = Z.of_nat j) as Hlook.
  { intros name i. by apply label_map_lookup. }
  assert (size label_map = length names) as Hsize.
  { unfold label_map. rewrite map_size_list_to_map.
    - by rewrite length_reverse, length_imap.
    - rewrite fmap_reverse, fmap_imap, (imap_ext _ (const id)) by done.
      by rewrite imap_const, list_fmap_id, reverse_Permutation. }
  assert (indices_in_range label_map) as Hrange.
  { intros name i (j & Hj%lookup_lt_Some & ->)%Hlook. rewrite Hsize. lia. }
  destruct (loop_returns label_map (glob FILENAMES) ∅ Hrange) as [d Hd].
  { intros p (folder & Hp & [j Hj]%list_elem_of_lookup)%Hfiles.
    exists folder. split; [done|]. exists (Z.of_nat j). apply Hlook. eauto. }
  rewrite <- one_hot_encode_loop in Hd.
  destruct (labelled_dataset_returns _ _ _ Hd) as (items & -> & Hfst & Hitems & _).
  exists items. split_and!; [done..|].
  intros p v Hv%Hitems.
  destruct (one_hot_encode_values _ _ _ _ _ Hd Hv) as (folder & i & Hp & Hi & Hset).
  apply Hlook in Hi as (j & Hj & ->). exists folder, j. split_and!; [done..|].
  pose proof (lookup_lt_Some _ _ _ Hj) as Hlt.
  rewrite setitem_zeros in Hset by lia. injection Hset as <-.
  rewrite Hsize. apply one_hot_insert. lia.
Qed.

End Listing.

Lemma notebook_dataset_labels_witness :
  exists items,
    notebook_dataset (H := Bucket.two_breeds) = Ok (from_tensor_slices items) /\
    items.*1 = first_occurrences (glob (Ops := Bucket.two_breeds) FILENAMES) /\
    exists folder j,
      parent_folder "gs://tf-data-pipeline/n02085782-Japanese_spaniel/n02085782_1039.jpg"
        = Some folder /\
      (basename <$> glob (Ops := Bucket.two_breeds) FOLDERS) !! j = Some folder /\
      ("gs://tf-data-pipeline/n02085782-Japanese_spaniel/n02085782_1039.jpg", [0; 1])
        ∈ items.
Proof.
  destruct (notebook_dataset_labels (H := Bucket.two_breeds))
    as (items & Heq & Hfst & Hlabels).
  - cbv zeta. compute_done.
  - intros p Hp.
    assert (p ∈ [ "gs://tf-data-pipeline/n02085620-Chihuahua/n02085620_10074.jpg";
                  "gs://tf-data-pipeline/n02085620-Chihuahua/n02085620_10131.jpg";
                  "gs://tf-data-pipeline/n02085782-Japanese_spaniel/n02085782_1039.jpg" ])
      as Hp' by exact Hp.
    rewrite !elem_of_cons, elem_of_nil in Hp'.
    destruct Hp' as [->|[->|[->|[]]]].
    + exists "n02085620-Chihuahua". split; [evaluated|]. by left.
    + exists "n02085620-Chihuahua". split; [evaluated|]. by left.
    + exists "n02085782-Japanese_spaniel". split; [evaluated|]. right. by left.
  - exists items. split_and!; [done..|].
    exists "n02085782-Japanese_spaniel", 1%nat. split_and!; [evaluated|evaluated|].
    assert (Ok (from_tensor_slices items) =
            Ok (from_tensor_slices
                  [ ("gs://tf-data-pipeline/n02085620-Chihuahua/n02085620_10074.jpg", [1; 0]);
                    ("gs://tf-data-pipeline/n02085620-Chihuahua/n02085620_10131.jpg", [1; 0]);
                    ("gs://tf-data-pipeline/n02085782-Japanese_spaniel/n02085782_1039.jpg",
                     [0; 1]) ])) as Hitems.
    { rewrite <- Heq. evaluated. }
    injection Hitems as ->. right. right. by left.
Defined.

End AssemblyFacts.

(** ** [timeit] and the datasets it is run on *)
Module TimeitFacts.

Import TfData Tf Benchmark Notions Cells TfDataFacts.

(** One pass of the loop of [timeit]. *)
Local Abbreviation timeit_step s :=
  (fun (out : string) (i : nat) =>
     batch ← next_element s i;
     mret (if Nat.eqb (i mod 10) 0 then out +:+ "." else out)).

Lemma for_each_option_app {A St : Type} (body : St -> A -> option St) acc xs ys :
  for_each body acc (xs ++ ys) = (acc' ← for_each body acc xs; for_each body acc' ys).
Proof.
  revert acc. induction xs as [|x xs IH]; intros acc; [done|].
  cbn. destruct (body acc x); [apply IH|done].
Qed.

Lemma elem_of_cycle {A : Type} (k : nat) (l : list A) (x : A) : x ∈ cycle k l -> x ∈ l.
Proof.
  induction k as [|k IH]; [by intros ?%elem_of_nil|].
  rewrite cycle_S, elem_of_app. tauto.
Qed.

Lemma length_first_n_le {A : Type} (n : nat) (s : Seq A) : (length (first_n n s) <= n)%nat.
Proof. destruct s; cbn [first_n]; rewrite length_take; lia. Qed.

(** An endless dataset yields as many elements as are asked for. *)
Lemma length_first_n_repeated {A : Type} (n : nat) (l : list A) :
  l <> [] -> length (first_n n (Repeated l)) = n.
Proof.
  intros Hl. cbn [first_n]. rewrite length_take, length_cycle.
  destruct l; [done|]. cbn [length]. nia.
Qed.

(** A shorter iteration yields the first elements of a longer one. *)
Lemma first_n_prefix {A : Type} (n m : nat) (s : Seq A) :
  (n <= m)%nat -> first_n n s = firstn n (first_n m s).
Proof.
  intros Hle. destruct s as [l|l]; cbn [first_n].
  - by rewrite take_take, Nat.min_l.
  - rewrite take_take, Nat.min_l by done.
    destruct l as [|x l]; [by rewrite !cycle_nil|].
    replace m with (n + (m - n))%nat at 1 by lia.
    rewrite cycle_add. symmetry. apply take_app_le.
    rewrite length_cycle. cbn [length]. nia.
Qed.

Lemma next_element_first_n {A : Type} (s : Seq A) (i n : nat) :
  (i < n)%nat -> next_element s i = first_n n s !! i.
Proof.
  intros Hi. unfold next_element. rewrite (first_n_prefix (S i) n) by lia.
  apply lookup_take_lt. lia.
Qed.

Lemma dots_step (n : nat) :
  ((S n + 9) / 10)%nat =
  if Nat.eqb (n mod 10) 0 then S ((n + 9) / 10) else ((n + 9) / 10)%nat.
Proof.
  assert (forall q r, (r < 10)%nat ->
            ((S (10 * q + r) + 9) / 10)%nat =
            if Nat.eqb r 0 then S ((10 * q + r + 9) / 10) else ((10 * q + r + 9) / 10)%nat)
    as Hqr.
  { intros q r Hr.
    replace (S (10 * q + r) + 9)%nat with (q * 10 + (r + 10))%nat by lia.
    replace (10 * q + r + 9)%nat with (q * 10 + (r + 9))%nat by lia.
    rewrite !Nat.div_add_l by lia.
    do 10 (destruct r as [|r]; [cbn; lia|]). lia. }
  specialize (Hqr (n / 10)%nat (n mod 10)%nat (Nat.mod_upper_bound n 10 ltac:(lia))).
  by rewrite <- Nat.div_mod_eq in Hqr.
Qed.

Lemma timeit_loop {A : Type} (s : Seq A) (n : nat) :
  (forall i, (i < n)%nat -> is_Some (next_element s i)) ->
  for_each (timeit_step s) EmptyString (seq 0 n) = Some (dots ((n + 9) / 10)).
Proof.
  induction n as [|n IH]; intros Hall; [done|].
  rewrite seq_S, Nat.add_0_l, for_each_option_app, IH by (intros; apply Hall; lia).
  destruct (Hall n) as [x Hx]; [lia|].
  cbn -[next_element Nat.modulo Nat.div Nat.add dots]. rewrite Hx.
  cbn -[Nat.modulo Nat.div Nat.add dots]. rewrite dots_step. by destruct (Nat.eqb (n mod 10) 0).
Qed.

Lemma timeit_loop_stops {A : Type} (s : Seq A) (n i : nat) acc :
  (i < n)%nat -> next_element s i = None ->
  for_each (timeit_step s) acc (seq 0 n) = None.
Proof.
  intros Hi Hnone. replace n with (i + S (n - S i))%nat by lia.
  rewrite seq_app, for_each_option_app.
  destruct (for_each _ acc (seq 0 i)) as [out|]; [|done].
  cbn -[next_element Nat.modulo]. by rewrite Hnone.
Qed.

Lemma timeit_eq {A : Type} (ds : Dataset A) (steps batch_size : nat) :
  timeit ds steps batch_size =
  if decide (length (first_n steps (elems ds)) = steps)
  then Some (dots ((steps + 9) / 10) +:+ newline)
  else None.
Proof.
  unfold timeit. destruct (decide _) as [Hlen|Hlen].
  - rewrite timeit_loop; [done|]. intros i Hi.
    rewrite (next_element_first_n _ i steps) by done.
    apply lookup_lt_is_Some. lia.
  - pose proof (length_first_n_le steps (elems ds)).
    rewrite (timeit_loop_stops (elems ds) steps (length (first_n steps (elems ds))));
      [done|lia|].
    rewrite (next_element_first_n _ _ steps) by lia.
    by apply lookup_ge_None.
Qed.

(** Groups of a list whose length is a multiple of the batch size. *)
Lemma chunks_exact {A : Type} (n b : nat) (l : list A) :
  (1 <= b)%nat -> length l = (n * b)%nat ->
  length (chunks b l) = n /\ Forall (fun c => length c = b) (chunks b l).
Proof.
  intros Hb. revert l. induction n as [|n IH]; intros l Hl.
  - destruct l; [|done]. split; [done|constructor].
  - destruct l as [|x l]; [cbn in Hl; lia|].
    rewrite chunks_cons by done.
    destruct (IH (skipn b (x :: l))) as [Hlen Hall].
    { rewrite length_drop, Hl. lia. }
    split; [cbn [length]; by rewrite Hlen|].
    constructor; [|done]. rewrite length_take, Hl. lia.
Qed.

(** X7. [timeit] prints one dot for every tenth step, [ceil(steps / 10)]
    in all, and a newline when the dataset yields [steps] elements; when
    the dataset ends before, [next] raises [StopIteration] and [timeit]
    does not return. *)
Theorem timeit_prints {A : Type} (ds : Dataset A) (steps batch_size : nat) :
  timeit ds steps batch_size =
  if decide (length (first_n steps (elems ds)) = steps)
  then Some (dots ((steps + 9) / 10) +:+ newline)
  else None.
Proof. apply timeit_eq. Qed.

Section Pipeline.

Context `{Runtime} `{Ops}.

(** The batches of [build_dataset] are the groups of the stream in which
    the passes over the shuffled, read and decoded elements follow each
    other. *)
Lemma build_dataset_batches (NUM_TOTAL_IMAGES : nat) {L : Type}
    (dataset : Dataset (string * L)) (batch_size : nat) (cache : value)
    (items l : list (string * L)) (n : nat) :
  elems dataset = Finite items ->
  shuffle_elems (Z.of_nat NUM_TOTAL_IMAGES) (Finite items) = Finite l ->
  (1 <= batch_size)%nat ->
  first_n n (elems (build_dataset NUM_TOTAL_IMAGES dataset batch_size cache)) =
  chunks batch_size
    (first_n (n * batch_size)
       match l with
       | [] => Finite []
       | _ => Repeated
                ((fun p => unpack process_image (unpack get_bytes_label p)) <$> l)
       end).
Proof.
  intros Hitems Hl Hb. unfold build_dataset.
  transitivity (first_n n (elems (batch batch_size
      (TfData.repeat (TfData.map (unpack process_image) (Some AUTOTUNE)
         (TfData.map (unpack get_bytes_label) (Some AUTOTUNE)
            (TfData.shuffle (Z.of_nat NUM_TOTAL_IMAGES) dataset))))))).
  { by destruct (truthy cache); [destruct cache|]. }
  rewrite batch_first_n by done. do 2 f_equal.
  cbn. rewrite Hitems, Hl. cbn. rewrite <- list_fmap_compose. by destruct l.
Qed.

(** X8. Over a finite, non-empty dataset of paths and labels of one
    length, with a shuffle buffer and a batch size of at least one and no
    cache, [build_dataset] builds an endless dataset: any number of
    batches can be taken from it, every batch is full, every element of a
    batch is a listed path read, decoded and resized with its label, and
    [timeit] returns for every number of steps. *)
Theorem build_dataset_endless (NUM_TOTAL_IMAGES : nat) (items : list (string * list Z))
    (batch_size : nat) (cache : value) (steps : nat) :
  shuffle_permutes ->
  items <> [] ->
  (forall x y, x ∈ items -> y ∈ items -> length x.2 = length y.2) ->
  (1 <= NUM_TOTAL_IMAGES)%nat ->
  (1 <= batch_size)%nat ->
  truthy cache = false ->
  let ds := build_dataset NUM_TOTAL_IMAGES (from_tensor_slices items) batch_size cache in
  length (first_n steps (elems ds)) = steps /\
  Forall (fun batch =>
            length batch = batch_size /\
            Forall (fun x => exists p, p ∈ items /\
                      x = unpack process_image (unpack get_bytes_label p)) batch)
         (first_n steps (elems ds)) /\
  timeit ds steps batch_size = Some (dots ((steps + 9) / 10) +:+ newline).
Proof.
  intros Hshuffle Hitems _ _ Hb _ ds.
  destruct (Hshuffle _ (Z.of_nat NUM_TOTAL_IMAGES) items) as (l & Hl & Hperm).
  set (f := fun p : string * list Z => unpack process_image (unpack get_bytes_label p)).
  assert (l <> []) as Hne.
  { intros ->. by apply Permutation_nil_l in Hperm. }
  assert (first_n steps (elems ds) =
          chunks batch_size (first_n (steps * batch_size) (Repeated (f <$> l)))) as Heq.
  { unfold ds. rewrite (build_dataset_batches _ _ _ _ items l) by done. by destruct l. }
  assert (length (first_n (steps * batch_size) (Repeated (f <$> l))) =
          (steps * batch_size)%nat) as Hlen.
  { apply length_first_n_repeated. by destruct l. }
  destruct (chunks_exact steps batch_size _ Hb Hlen) as [Hn Hfull].
  assert (length (first_n steps (elems ds)) = steps) as Hsteps by (by rewrite Heq).
  split_and!; [done| |].
  - rewrite Heq. apply Forall_forall. intros c Hc. split.
    + rewrite Forall_forall in Hfull. by apply Hfull.
    + apply Forall_forall. intros x Hx.
      pose proof (chunks_elem_of _ _ _ _ Hb Hc Hx) as Hin.
      cbn [first_n] in Hin. apply subseteq_take, elem_of_cycle in Hin.
      apply list_elem_of_fmap in Hin as (p & -> & Hp).
      exists p. split; [|done]. by rewrite <- Hperm.
  - rewrite timeit_eq. by rewrite decide_True.
Qed.

(** X9. Over a dataset that yields nothing, with a shuffle buffer and a
    batch size of at least one, [build_dataset] builds a dataset that
    yields nothing, the [repeat] in it notwithstanding, and [timeit] with
    at least one step stops at the first [next]. *)
Theorem build_dataset_empty (NUM_TOTAL_IMAGES : nat) {L : Type}
    (dataset : Dataset (string * L)) (batch_size : nat) (cache : value) (steps : nat) :
  shuffle_permutes ->
  elems dataset = Finite [] ->
  (1 <= NUM_TOTAL_IMAGES)%nat ->
  (1 <= batch_size)%nat ->
  (1 <= steps)%nat ->
  elems (build_dataset NUM_TOTAL_IMAGES dataset batch_size cache) = Finite [] /\
  timeit (build_dataset NUM_TOTAL_IMAGES dataset batch_size cache) steps batch_size = None.
Proof.
  intros Hshuffle Hempty _ Hb Hsteps.
  destruct (Hshuffle _ (Z.of_nat NUM_TOTAL_IMAGES) ([] : list (string * L)))
    as (l & Hl & Hperm).
  apply Permutation_nil_r in Hperm as ->.
  assert (elems (build_dataset NUM_TOTAL_IMAGES dataset batch_size cache) = Finite [])
    as Heq.
  { unfold build_dataset.
    transitivity (elems (batch batch_size
        (TfData.repeat (TfData.map (unpack process_image) (Some AUTOTUNE)
           (TfData.map (unpack get_bytes_label) (Some AUTOTUNE)
              (TfData.shuffle (Z.of_nat NUM_TOTAL_IMAGES) dataset)))))).
    { by destruct (truthy cache); [destruct cache|]. }
    cbn. rewrite Hempty, Hl. done. }
  split; [done|]. rewrite timeit_eq, Heq. cbn [first_n]. rewrite take_nil.
  rewrite decide_False; [done|]. cbn. lia.
Qed.

End Pipeline.

Lemma one_reader_permutes : shuffle_permutes (H := one_reader).
Proof. intros A buffer_size l. exists (reverse l). split; [done|apply reverse_Permutation]. Qed.

Lemma build_dataset_endless_witness :
  length (first_n 25
            (elems (build_dataset (H := one_reader) (H0 := Samples.ops) 3
                      (from_tensor_slices
                         [ ("gs://tf-data-pipeline/n02085620-Chihuahua/n02085620_10074.jpg",
                            [1; 0]);
                           ("gs://tf-data-pipeline/n02085620-Chihuahua/n02085620_10131.jpg",
                            [1; 0]);
                           ("gs://tf-data-pipeline/n02085782-Japanese_spaniel/n02085782_1039.jpg",
                            [0; 1]) ])
                      2 (VBool false)))) = 25%nat /\
  timeit (build_dataset (H := one_reader) (H0 := Samples.ops) 3
            (from_tensor_slices
               [ ("gs://tf-data-pipeline/n02085620-Chihuahua/n02085620_10074.jpg", [1; 0]);
                 ("gs://tf-data-pipeline/n02085620-Chihuahua/n02085620_10131.jpg", [1; 0]);
                 ("gs://tf-data-pipeline/n02085782-Japanese_spaniel/n02085782_1039.jpg",
                  [0; 1]) ])
            2 (VBool false)) 25 2 = Some (dots ((25 + 9) / 10) +:+ newline).
Proof.
  pose proof (build_dataset_endless (H := one_reader) (H0 := Samples.ops) 3
                [ ("gs://tf-data-pipeline/n02085620-Chihuahua/n02085620_10074.jpg", [1; 0]);
                  ("gs://tf-data-pipeline/n02085620-Chihuahua/n02085620_10131.jpg", [1; 0]);
                  ("gs://tf-data-pipeline/n02085782-Japanese_spaniel/n02085782_1039.jpg",
                   [0; 1]) ]
                2 (VBool false) 25 one_reader_permutes) as Hds.
  cbv zeta in Hds. destruct Hds as (Hlen & _ & Htime); [done| |lia|lia|done|by split].
  intros x y Hx Hy. rewrite !elem_of_cons, elem_of_nil in Hx, Hy.
  destruct Hx as [->|[->|[->|[]]]], Hy as [->|[->|[->|[]]]]; reflexivity.
Defined.

Lemma build_dataset_empty_witness :
  elems (build_dataset (H := one_reader) (H0 := Samples.ops) 3
           (TfData.take 0
              (from_tensor_slices
                 [ ("gs://tf-data-pipeline/n02085620-Chihuahua/n02085620_10074.jpg",
                    [1; 0]) ]))
           1 VNone) = Finite [] /\
  timeit (build_dataset (H := one_reader) (H0 := Samples.ops) 3
            (TfData.take 0
               (from_tensor_slices
                  [ ("gs://tf-data-pipeline/n02085620-Chihuahua/n02085620_10074.jpg",
                     [1; 0]) ]))
            1 VNone) 1000 1 = None.
Proof.
  apply (build_dataset_empty (H := one_reader) (H0 := Samples.ops) 3
           (TfData.take 0
              (from_tensor_slices
                 [ ("gs://tf-data-pipeline/n02085620-Chihuahua/n02085620_10074.jpg",
                    [1; 0]) ]))
           1 VNone 1000 one_reader_permutes); [reflexivity|lia..].
Defined.

(** X10. [local_ds] yields the first element of [train_ds] over and over,
    so [timeit] returns on it for every number of steps. *)
Theorem local_ds_repeats_first {A : Type} (train_ds : Dataset A) (x : A) (n : nat) :
  next_element (elems train_ds) 0 = Some x ->
  first_n n (elems (local_ds train_ds)) = replicate n x /\
  timeit (local_ds train_ds) n 1 = Some (dots ((n + 9) / 10) +:+ newline).
Proof.
  intros Hx. unfold next_element in Hx.
  assert (first_n 1 (elems train_ds) = [x]) as Hfirst.
  { pose proof (length_first_n_le 1 (elems train_ds)).
    destruct (first_n 1 (elems train_ds)) as [|y [|z l]]; cbn in *; [done| |lia].
    by injection Hx as ->. }
  assert (first_n n (elems (local_ds train_ds)) = replicate n x) as Heq.
  { unfold local_ds. cbn. rewrite Hfirst. cbn [first_n].
    assert (cycle n [x] = replicate n x) as ->.
    { induction n as [|n IH]; [done|]. by rewrite cycle_S, IH. }
    apply take_ge. by rewrite length_replicate. }
  split; [done|]. rewrite timeit_eq, Heq, length_replicate. by rewrite decide_True.
Qed.

Lemma local_ds_repeats_first_witness :
  first_n 4 (elems (local_ds (batch 2 (from_tensor_slices [1; 2; 3])))) =
    replicate 4 [1; 2] /\
  timeit (local_ds (batch 2 (from_tensor_slices [1; 2; 3]))) 4 1 =
    Some (dots ((4 + 9) / 10) +:+ newline).
Proof.
  apply (local_ds_repeats_first (batch 2 (from_tensor_slices [1; 2; 3])) [1; 2] 4).
  reflexivity.
Defined.

End TimeitFacts.

(** ** [create_tfrecord] without shards, without an end, and twice *)
Module ShardEdgeFacts.

Import TfData Tf Benchmark Notions ShardFacts.

Section Shards.

Context `{Ops}.

(** The iteration over a shard of an endless dataset does not end. *)
Lemma create_tfrecord_endless (ds : Dataset (string * list Z)) (n_shards : nat)
    (l : list (string * list Z)) (fs : gmap string TFRecordFile) :
  elems ds = Repeated l -> (1 <= n_shards)%nat -> create_tfrecord ds n_shards fs = None.
Proof.
  intros Hl Hn. unfold create_tfrecord.
  destruct n_shards as [|n]; [lia|]. cbn [seq for_each].
  unfold as_numpy_iterator, apply, build_dataset_tfrecord, TfData.map, shard.
  cbn [elems]. by rewrite Hl.
Qed.

(** X11. With [n_shards = 0] the loop of [create_tfrecord] has no pass:
    no file is written, whatever the dataset.  With at least one shard and
    an endless dataset, the writing of the first shard never ends and
    [create_tfrecord] does not return. *)
Theorem create_tfrecord_edges (ds : Dataset (string * list Z))
    (fs : gmap string TFRecordFile) :
  create_tfrecord ds 0 fs = Some fs /\
  forall l n_shards,
    elems ds = Repeated l -> (1 <= n_shards)%nat -> create_tfrecord ds n_shards fs = None.
Proof.
  split; [done|]. intros l n_shards. apply create_tfrecord_endless.
Qed.


End Shards.


End ShardEdgeFacts.

(** ** The streams of the two versions of [build_dataset_test] *)
Module StreamFacts.

Import TfData Tf Benchmark Notions TfDataFacts BatchFacts TimeitFacts.

(** Grouping loses and reorders nothing. *)
Lemma mjoin_chunks {A : Type} (b : nat) (l : list A) :
  (1 <= b)%nat -> mjoin (chunks b l) = l.
Proof.
  intros Hb. remember (length l) as m eqn:Hm.
  revert l Hm. induction (lt_wf m) as [m _ IH]. intros l ->.
  destruct l as [|x l]; [done|].
  rewrite chunks_cons by done. cbn [mjoin list_join].
  rewrite (IH (length (skipn b (x :: l)))); [apply take_drop| |done].
  rewrite length_drop. cbn [length]. lia.
Qed.


(** The number of groups is the length over the batch size, rounded up. *)
Lemma length_chunks {A : Type} (b : nat) (l : list A) :
  (1 <= b)%nat -> length (chunks b l) = ((length l + b - 1) / b)%nat.
Proof.
  intros Hb. remember (length l) as m eqn:Hm.
  revert l Hm. induction (lt_wf m) as [m _ IH]. intros l ->.
  destruct l as [|x l].
  - cbn [length]. symmetry. apply Nat.div_small. lia.
  - rewrite chunks_cons by done. cbn [length].
    rewrite (IH (length (skipn b (x :: l))) ltac:(rewrite length_drop; cbn [length]; lia)
               _ eq_refl).
    rewrite length_drop. cbn [length].
    replace (S (length l) + b - 1)%nat with (length l + 1 * b)%nat by lia.
    rewrite Nat.div_add by lia.
    destruct (decide (S (length l) <= b)%nat) as [Hle|Hgt].
    + rewrite !Nat.div_small by lia. lia.
    + replace (S (length l) - b + b - 1)%nat with (length l) by lia. lia.
Qed.





Section Versions.

Context `{Runtime} `{Ops}.

Local Abbreviation parse r := (parse_single_example r feature_description).

Local Abbreviation per_element r :=
  (PerElement.process_image_tfrecord (PerElement._parse_function r)).

Local Abbreviation vectorized c :=
  (Vectorized.process_image_tfrecord (Vectorized._parse_function c)).






End Versions.




End StreamFacts.

(** ** The two splits of [get_dataset] *)
Module SplitFacts.

Import TfData Tf Keras KerasCnn Notions TfDataFacts StreamFacts.

Section Splits.

Context `{Runtime} `{Ops}.

(** X16. [get_dataset] on two finite splits: the batches of the test
    split, put end to end, are its examples in order, every image scaled
    and every label as it came; the batches of the training split hold its
    scaled examples in some order; each split has its number of examples
    over the batch size, rounded up, batches. *)
Theorem get_dataset_splits {L : Type} (mnist_train mnist_test : Dataset (Tensor * L))
    (batch_size : nat) (buffer_size : Z) (train test : list (Tensor * L)) :
  shuffle_permutes ->
  elems mnist_train = Finite train -> elems mnist_test = Finite test ->
  (1 <= batch_size)%nat ->
  exists train_batches test_batches,
    elems (get_dataset mnist_train mnist_test batch_size buffer_size).1
      = Finite train_batches /\
    elems (get_dataset mnist_train mnist_test batch_size buffer_size).2
      = Finite test_batches /\
    mjoin test_batches = unpack scale <$> test /\
    (mjoin test_batches).*2 = test.*2 /\
    mjoin train_batches ≡ₚ unpack scale <$> train /\
    length train_batches = ((length train + batch_size - 1) / batch_size)%nat /\
    length test_batches = ((length test + batch_size - 1) / batch_size)%nat.
Proof.
  intros Hshuffle Htrain Htest Hb.
  destruct (Hshuffle _ buffer_size (unpack scale <$> train)) as (l & Hl & Hperm).
  exists (chunks batch_size l), (chunks batch_size (unpack scale <$> test)).
  split_and!.
  - unfold get_dataset, batch, shuffle, cache, TfData.map. cbn [fst elems].
    rewrite Htrain. cbn [seq_map]. by rewrite Hl.
  - unfold get_dataset, batch, TfData.map. cbn [snd elems]. by rewrite Htest.
  - by apply mjoin_chunks.
  - rewrite mjoin_chunks by done. rewrite <- list_fmap_compose.
    by apply list_fmap_ext.
  - by rewrite mjoin_chunks.
  - rewrite length_chunks by done. apply Permutation_length in Hperm.
    rewrite length_fmap in Hperm. by rewrite Hperm.
  - rewrite length_chunks by done. by rewrite length_fmap.
Qed.

End Splits.

Lemma get_dataset_splits_witness :
  exists train_batches test_batches,
    elems (get_dataset (H := one_reader) (H0 := Samples.ops)
             (from_tensor_slices [ ((1%nat, Samples.b 5), 5); ((1%nat, Samples.b 0), 0);
                                   ((1%nat, Samples.b 4), 4) ])
             (from_tensor_slices [ ((1%nat, Samples.b 7), 7); ((1%nat, Samples.b 2), 2);
                                   ((1%nat, Samples.b 1), 1) ])
             2 BUFFER_SIZE).1 = Finite train_batches /\
    elems (get_dataset (H := one_reader) (H0 := Samples.ops)
             (from_tensor_slices [ ((1%nat, Samples.b 5), 5); ((1%nat, Samples.b 0), 0);
                                   ((1%nat, Samples.b 4), 4) ])
             (from_tensor_slices [ ((1%nat, Samples.b 7), 7); ((1%nat, Samples.b 2), 2);
                                   ((1%nat, Samples.b 1), 1) ])
             2 BUFFER_SIZE).2 = Finite test_batches /\
    (mjoin test_batches).*2 = [7; 2; 1] /\
    length train_batches = 2%nat.
Proof.
  destruct (get_dataset_splits (H := one_reader) (H0 := Samples.ops)
              (from_tensor_slices [ ((1%nat, Samples.b 5), 5); ((1%nat, Samples.b 0), 0);
                                    ((1%nat, Samples.b 4), 4) ])
              (from_tensor_slices [ ((1%nat, Samples.b 7), 7); ((1%nat, Samples.b 2), 2);
                                    ((1%nat, Samples.b 1), 1) ])
              2 BUFFER_SIZE
              [ ((1%nat, Samples.b 5), 5); ((1%nat, Samples.b 0), 0);
                ((1%nat, Samples.b 4), 4) ]
              [ ((1%nat, Samples.b 7), 7); ((1%nat, Samples.b 2), 2);
                ((1%nat, Samples.b 1), 1) ])
    as (train_batches & test_batches & Htrain & Htest & _ & Hlabels & _ & Hlen & _).
  - intros A buffer_size l. exists (reverse l). split; [done|apply reverse_Permutation].
  - reflexivity.
  - reflexivity.
  - lia.
  - exists train_batches, test_batches. split_and!; [done..|exact Hlabels|exact Hlen].
Defined.

End SplitFacts.

(** ** Popping columns *)
Module FrameFacts.

Import TfData Notions TabularData TfDataFacts TabularFacts.

Lemma list_find_filter {A : Type} (P Q : A -> Prop) `{forall x, Decision (P x)}
    `{forall x, Decision (Q x)} (l : list A) (k : nat) (c : A) :
  (forall x, P x -> Q x) -> list_find P l = Some (k, c) ->
  exists k', list_find P (filter Q l) = Some (k', c).
Proof.
  intros HPQ. revert k. induction l as [|a l IH]; intros k Hfind; [done|].
  cbn [list_find] in Hfind. rewrite filter_cons.
  destruct (decide (P a)) as [Ha|Ha].
  - injection Hfind as <- <-. rewrite decide_True by auto.
    exists 0%nat. cbn [list_find]. by rewrite decide_True.
  - destruct (list_find P l) as [[k0 c0]|] eqn:Hl; [|done].
    injection Hfind as <- <-. destruct (IH k0 eq_refl) as [k' Hk'].
    destruct (decide (Q a)); [|by exists k'].
    exists (S k'). cbn [list_find]. rewrite decide_False by done. by rewrite Hk'.
Qed.

Section Frame.

Context {V : Type}.

(** X17. In a frame whose column names are pairwise distinct, [pop]
    returns the values of the named column and leaves the other columns in
    their order: popping the same name again raises [KeyError], and every
    other column can still be popped, with the values it had. *)
Theorem pop_removes_column (df df' : DataFrame V) (name : string) (vs : list V) :
  NoDup (columns df).*1 ->
  pop name df = Ok (vs, df') ->
  (name, vs) ∈ columns df /\
  columns df' = filter (fun c => c.1 <> name) (columns df) /\
  n_rows df' = n_rows df /\
  pop name df' = Raise KeyError /\
  forall other ws d1,
    other <> name -> pop other df = Ok (ws, d1) -> exists d2, pop other df' = Ok (ws, d2).
Proof.
  intros Hnd Hpop. unfold pop in Hpop.
  destruct (list_find _ (columns df)) as [[j c]|] eqn:Hfind; [|done].
  injection Hpop as <- <-.
  pose proof Hfind as (Hj & Hc & _)%list_find_Some.
  assert (delete j (columns df) = filter (fun c => c.1 <> name) (columns df)) as Hdel
    by (by apply (delete_is_filter name _ j c)).
  split_and!.
  - apply list_elem_of_lookup. exists j. rewrite Hj. by destruct c as [n v]; cbn in *; subst.
  - done.
  - done.
  - unfold pop. cbn [columns]. rewrite Hdel.
    destruct (list_find _ (filter _ _)) as [[k c']|] eqn:Hk; [|done].
    apply list_find_Some in Hk as (Hk%list_elem_of_lookup_2 & Hc' & _).
    by apply list_elem_of_filter in Hk as [Hne _].
  - intros other ws d1 Hother Hpop. unfold pop in Hpop |- *.
    destruct (list_find (fun c => c.1 = other) (columns df)) as [[k c']|] eqn:Hk; [|done].
    injection Hpop as <- <-. cbn [columns]. rewrite Hdel.
    destruct (list_find_filter (fun c : string * list V => c.1 = other)
                (fun c => c.1 <> name) (columns df) k c')
      as [k' ->]; [congruence|done|].
    by eexists.
Qed.

End Frame.

Section Pipeline.

Context `{Runtime} {V : Type}.

(** X18. [train_dataset] raises [KeyError] exactly for the frames without
    a column ['target']. *)
Theorem train_dataset_key_error (df : DataFrame V) :
  train_dataset df = Raise KeyError <-> "target" ∉ (columns df).*1.
Proof.
  unfold train_dataset, pop.
  destruct (list_find _ (columns df)) as [[j c]|] eqn:Hfind.
  - apply list_find_Some in Hfind as (Hj%list_elem_of_lookup_2 & Hc & _).
    split.
    + cbn. unfold from_tensor_slices2. by destruct (Nat.eqb _ _).
    + intros Hnot. exfalso. apply Hnot, list_elem_of_fmap. by exists c.
  - split; [|done]. intros _ [c [Hc Hin]]%list_elem_of_fmap.
    apply list_find_None in Hfind. rewrite Forall_forall in Hfind.
    by apply (Hfind c).
Qed.

End Pipeline.

Lemma pop_removes_column_witness :
  exists df',
    pop "target" Samples.heart = Ok (["0"; "1"], df') /\
    pop "target" df' = Raise KeyError /\
    exists d2, pop "thal" df' = Ok (["2"; "3"], d2).
Proof.
  assert (exists df', pop "target" Samples.heart = Ok (["0"; "1"], df')) as [df' Hpop]
    by (eexists; reflexivity).
  exists df'. split; [exact Hpop|].
  destruct (pop_removes_column Samples.heart df' "target" ["0"; "1"])
    as (_ & _ & _ & Hagain & Hother).
  - cbv zeta. compute_done.
  - exact Hpop.
  - split; [exact Hagain|]. eapply Hother; [done|reflexivity].
Defined.

End FrameFacts.

(** ** Checkpoints every few epochs *)
Module PeriodFacts.

Import Keras SaveLoad Cells.

Section Period.

Context `{Trainer}.

Lemma train_epochs_S (n : nat) (ls : list Layer) (w : Weights) (data : Data) :
  train_epochs (S n) ls w data = train_epochs n ls (train_epoch ls w data) data.
Proof. done. Qed.

(** Training from any point of a period: the epochs are trained one after
    the other, nothing is saved before the period is over, and the last
    save holds the weights of the epoch it was made after. *)
Lemma fit_from_last (cb : ModelCheckpoint) (data : Data) (epochs : nat) :
  (1 <= period cb)%nat ->
  forall epoch since m fs,
    (since < period cb)%nat ->
    layers (fit_from epochs epoch cb data since m fs).1 = layers m /\
    weights (fit_from epochs epoch cb data since m fs).1 =
      train_epochs epochs (layers m) (weights m) data /\
    ((since + epochs < period cb)%nat ->
     (fit_from epochs epoch cb data since m fs).2 = fs) /\
    ((period cb <= since + epochs)%nat ->
     exists k,
       (1 <= k <= epochs)%nat /\ (period cb | since + k)%nat /\
       (epochs - k < period cb)%nat /\
       (fit_from epochs epoch cb data since m fs).2 !! filepath cb (epoch + k)%nat =
         Some (mkCheckpoint (layers m) (train_epochs k (layers m) (weights m) data))).
Proof.
  intros Hp. induction epochs as [|e IH]; intros epoch since m fs Hsince.
  - cbn [fit_from fst snd train_epochs]. split_and!; [done..|]. intros. lia.
  - cbn [fit_from]. unfold on_epoch_end.
    set (m1 := mkModel (layers m) (train_epoch (layers m) (weights m) data)).
    destruct (Nat.leb_spec (period cb) (S since)) as [Hsave|Hwait].
    + assert (S since = period cb) as Hfull by lia.
      destruct (IH (S epoch) 0%nat m1 (save_weights (filepath cb (S epoch)) m1 fs))
        as (Hl & Hw & Hnone & Hlast); [lia|].
      split_and!; [done|done|intros; lia|]. intros _.
      destruct (decide (e < period cb)%nat) as [Hshort|Hlong].
      * exists 1%nat. split; [lia|split; [|split; [lia|]]].
        -- replace (since + 1)%nat with (period cb) by lia. done.
        -- rewrite Hnone by lia. unfold save_weights.
           replace (epoch + 1)%nat with (S epoch) by lia.
           by rewrite lookup_insert_eq.
      * destruct Hlast as (k & Hk & Hdiv & Hrest & Hfile); [lia|].
        exists (S k). split; [lia|split; [|split; [lia|]]].
        -- replace (since + S k)%nat with (period cb + (0 + k))%nat by lia.
           by apply Nat.divide_add_r.
        -- replace (epoch + S k)%nat with (S epoch + k)%nat by lia. done.
    + destruct (IH (S epoch) (S since) m1 fs) as (Hl & Hw & Hnone & Hlast); [lia|].
      split_and!; [done|done| |].
      * intros Hlt. apply Hnone. lia.
      * intros Hge. destruct Hlast as (k & Hk & Hdiv & Hrest & Hfile); [lia|].
        exists (S k). split; [lia|split; [|split; [lia|]]].
        -- by replace (since + S k)%nat with (S since + k)%nat by lia.
        -- replace (epoch + S k)%nat with (S epoch + k)%nat by lia. done.
Qed.

(** X19. [fit] with a [ModelCheckpoint] of period [p >= 1] trains the
    epochs one after the other and saves nothing in fewer than [p] epochs;
    otherwise the file named after the largest multiple [k] of [p] up to
    the number of epochs holds the weights the model had after [k]
    epochs. *)
Theorem fit_last_checkpoint (cb : ModelCheckpoint) (m : Model) (data : Data) (epochs : nat)
    (fs : gmap string Checkpoint) :
  (1 <= period cb)%nat ->
  layers (fit m data epochs cb fs).1 = layers m /\
  weights (fit m data epochs cb fs).1 = train_epochs epochs (layers m) (weights m) data /\
  ((epochs < period cb)%nat -> (fit m data epochs cb fs).2 = fs) /\
  ((period cb <= epochs)%nat ->
   exists k,
     (period cb | k)%nat /\ (1 <= k <= epochs)%nat /\ (epochs < k + period cb)%nat /\
     (fit m data epochs cb fs).2 !! filepath cb k =
       Some (mkCheckpoint (layers m) (train_epochs k (layers m) (weights m) data))).
Proof.
  intros Hp. unfold fit.
  destruct (fit_from_last cb data epochs Hp 0%nat 0%nat m fs) as (Hl & Hw & Hnone & Hlast);
    [lia|].
  split_and!; [done|done|done|].
  intros Hge. destruct Hlast as (k & Hk & Hdiv & Hrest & Hfile); [done|].
  exists k. split; [done|]. split; [lia|]. split; [lia|done].
Qed.

(** X20. After the cell that trains for 50 epochs with a checkpoint every
    5, the file of epoch 50 holds the weights of the trained model:
    loading it into a new model gives the trained weights and the metrics
    of the trained model. *)
Theorem train_with_period_latest (initial fresh : Weights) (train test : Data)
    (fs : gmap string Checkpoint) :
  weights (train_with_period initial train fs).1 =
    train_epochs 50 (layers (create_model initial)) initial train /\
  exists restored,
    load_weights "training_2/cp-0050.ckpt" (create_model fresh)
      (train_with_period initial train fs).2 = Ok restored /\
    weights restored = weights (train_with_period initial train fs).1 /\
    evaluate restored test = evaluate (train_with_period initial train fs).1 test.
Proof.
  unfold train_with_period, fit.
  set (fs0 := save_weights (checkpoint_path_2 0) (create_model initial) fs).
  destruct (fit_from_last cp_callback_2 train 50 ltac:(cbn; lia) 0%nat 0%nat
              (create_model initial) fs0) as (Hl & Hw & _ & Hlast); [cbn; lia|].
  destruct Hlast as (k & Hk & [q Hq] & Hrest & Hfile); [cbn; lia|].
  cbn [period cp_callback_2] in Hq, Hrest.
  assert (k = 50%nat) as -> by lia.
  split; [done|].
  eexists. split.
  - unfold load_weights.
    change "training_2/cp-0050.ckpt" with (filepath cp_callback_2 (0 + 50)).
    rewrite Hfile. cbn [saved_layers saved_weights]. by rewrite decide_True.
  - split; [by rewrite Hw|].
    unfold evaluate. cbn [layers weights]. by rewrite Hl, Hw.
Qed.

(** X22. The notebook up to "Loads the weights" returns whatever the
    store held before and whatever the new model was initialised with: the
    trained model has the weights of ten epochs from the initial ones, and
    the restored model is evaluated on exactly these weights. *)
Theorem train_then_restore_result (initial fresh : Weights) (train test : Data)
    (fs : gmap string Checkpoint) :
  train_then_restore initial fresh train test fs =
  Ok (mkModel (layers (create_model initial))
        (train_epochs 10 (layers (create_model initial)) initial train),
      evaluate_weights (layers (create_model initial))
        (train_epochs 10 (layers (create_model initial)) initial train) test).
Proof.
  unfold train_then_restore, fit.
  destruct (fit_from_last cp_callback train 10 ltac:(cbn; lia) 0%nat 0%nat
              (create_model initial) fs) as (Hl & Hw & _ & Hlast); [cbn; lia|].
  destruct Hlast as (k & Hk & _ & Hrest & Hfile); [cbn; lia|].
  cbn [period cp_callback] in Hrest.
  assert (k = 10%nat) as -> by lia.
  destruct (fit_from 10 0 cp_callback train 0 (create_model initial) fs) as [trained fs'].
  cbn [fst snd filepath cp_callback] in Hl, Hw, Hfile.
  unfold load_weights. rewrite Hfile. cbn [saved_layers saved_weights].
  rewrite decide_True by done. cbn [mbind result_bind mret result_ret].
  destruct trained as [ls w]. cbn [layers weights] in Hl, Hw. subst ls w.
  done.
Qed.

End Period.

Lemma fit_last_checkpoint_witness :
  weights (fit (H := Samples.trainer) (create_model (H := Samples.trainer) 0%nat) () 12
             cp_callback_2 ∅).1 = 12%nat /\
  exists k,
    (5 | k)%nat /\ (1 <= k <= 12)%nat /\ (12 < k + 5)%nat /\
    (fit (H := Samples.trainer) (create_model (H := Samples.trainer) 0%nat) () 12
       cp_callback_2 ∅).2 !! checkpoint_path_2 k =
      Some (mkCheckpoint (H := Samples.trainer)
              (layers (create_model (H := Samples.trainer) 0%nat))
              (train_epochs (H := Samples.trainer) k
                 (layers (create_model (H := Samples.trainer) 0%nat)) 0%nat ())).
Proof.
  destruct (fit_last_checkpoint (H := Samples.trainer) cp_callback_2
              (create_model (H := Samples.trainer) 0%nat) () 12 ∅)
    as (_ & Hw & _ & Hlast).
  - cbn. lia.
  - split; [exact Hw|]. apply Hlast. cbn. lia.
Defined.

End PeriodFacts.

(** ** [LossHistory] *)
Module HistoryFacts.

Import Cells.

Section History.

Context {Loss : Type}.

Lemma batches_appended (self : LossHistory Loss) (logs : list (nat * gmap string Loss)) :
  per_batch_losses (foldl (fun self bl => on_batch_end self bl.1 bl.2) self logs) =
  per_batch_losses self ++ ((fun bl : nat * gmap string Loss => bl.2 !! "loss") <$> logs).
Proof.
  revert self. induction logs as [|bl logs IH]; intros self.
  - by rewrite app_nil_r.
  - cbn [foldl]. rewrite IH. cbn [on_batch_end per_batch_losses fmap list_fmap].
    by rewrite <- app_assoc.
Qed.

(** X21. After a run of [fit], [per_batch_losses] holds one entry for
    every batch of that run, in order: the ['loss'] of the batch's logs,
    or [None] when the logs have none.  What an earlier run had recorded is
    gone. *)
Theorem record_batches_losses (self : LossHistory Loss) (begin_logs : gmap string Loss)
    (batch_logs : list (gmap string Loss)) :
  per_batch_losses (record_batches self begin_logs batch_logs) =
  (fun logs => logs !! "loss") <$> batch_logs.
Proof.
  unfold record_batches. rewrite batches_appended.
  cbn [on_train_begin per_batch_losses app].
  rewrite fmap_imap.
  rewrite (imap_ext _ (const (fun logs : gmap string Loss => logs !! "loss"))) by done.
  by rewrite imap_const.
Qed.

End History.

End HistoryFacts.

(** ** When the two versions of [build_dataset_test] agree *)
Module VersionFacts.

Import TfData Tf Benchmark Notions TfDataFacts BatchFacts TimeitFacts StreamFacts.


Section Versions.

Context `{Runtime} `{Ops}.

Local Abbreviation parse r := (parse_single_example r feature_description).


End Versions.


End VersionFacts.

(** ** What the authored functions do to the data *)
Module AuthoredFacts.

Import TfData Tf Keras Benchmark Notions Cells.
Import PyFacts LabelFacts OneHotFacts TfDataFacts ShardFacts EncodingFacts TimeitFacts
  ShardEdgeFacts StreamFacts HistoryFacts.



Section Authored.

Context `{Runtime} `{Ops}.


End Authored.


End AuthoredFacts.
